(** * mn-driver-portal: Web Push subscription manager and service worker

  A shallow embedding of [static/push.js] (the foreground subscription
  manager exposed as [window.MNPush]) and of the service worker script
  ([/static/sw.js]: the [push] and [notificationclick] listeners), with
  the properties of their specification.

  JavaScript strings are modelled as [string], a character standing
  for a code unit; the browser is modelled as an explicit world that
  the asynchronous functions thread through, every awaited platform
  promise being settled by an environment. *)

From Stdlib Require Import List String Ascii Bool Arith NArith ZArith Lia.
From Stdlib Require Import Floats.SpecFloat.
Import ListNotations.

Local Open Scope string_scope.
Local Open Scope list_scope.

Set Warnings "-register-all".

(* ================================================================== *)
(** * JavaScript completions and errors *)
(* ================================================================== *)

(** The exceptions that can travel through the code: [Error msg] is
  [new Error(msg)] as thrown by the code itself; the others are raised
  by the platform. *)
Inductive JsError : Type :=
| Error (message : string)
| TypeError
| SyntaxError
| DOMException (name : string).

(** The outcome of evaluating a piece of code: a value, or a throw. *)
Inductive Completion (A : Type) : Type :=
| Return (value : A)
| Throw (error : JsError).
Arguments Return {A} value.
Arguments Throw {A} error.

(* ================================================================== *)
(** * String helpers of the JavaScript standard library *)
(* ================================================================== *)

Module JsString.

(** ['='.repeat(n)] and the like. *)
Fixpoint repeat (c : ascii) (n : nat) : string :=
  match n with
  | O => EmptyString
  | S n' => String c (repeat c n')
  end.

(** [s.replace(/c/g, d)] for a one-character pattern. *)
Fixpoint replace_all (c d : ascii) (s : string) : string :=
  match s with
  | EmptyString => EmptyString
  | String x s' => String (if Ascii.eqb x c then d else x) (replace_all c d s')
  end.

(** [s.includes(t)]: [t] occurs in [s] as a contiguous substring. *)
Fixpoint includes (s t : string) : bool :=
  String.prefix t s ||
  match s with
  | EmptyString => false
  | String _ s' => includes s' t
  end.

End JsString.

(* ================================================================== *)
(** * [atob]: the platform's forgiving base64 decoder *)
(* ================================================================== *)

Module Base64.

(** ASCII whitespace: TAB, LF, FF, CR and SPACE. *)
Definition is_ascii_whitespace (c : ascii) : bool :=
  let n := nat_of_ascii c in
  (n =? 9)%nat || (n =? 10)%nat || (n =? 12)%nat || (n =? 13)%nat || (n =? 32)%nat.

(** The value of a character of the standard base64 alphabet. *)
Definition sextet (c : ascii) : option N :=
  let n := N_of_ascii c in
  if ((65 <=? n) && (n <=? 90))%N then Some (n - 65)%N
  else if ((97 <=? n) && (n <=? 122))%N then Some (n - 71)%N
  else if ((48 <=? n) && (n <=? 57))%N then Some (n + 4)%N
  else if (n =? 43)%N then Some 62%N
  else if (n =? 47)%N then Some 63%N
  else None.

Fixpoint sextets (l : list ascii) : option (list N) :=
  match l with
  | [] => Some []
  | c :: l' =>
      match sextet c, sextets l' with
      | Some v, Some vs => Some (v :: vs)
      | _, _ => None
      end
  end.

(** "If data ends with one or two U+003D (=) code points, remove them." *)
Definition strip_padding (l : list ascii) : list ascii :=
  match rev l with
  | a :: r =>
      if Ascii.eqb a "="
      then match r with
           | b :: r' => if Ascii.eqb b "=" then rev r' else rev r
           | [] => rev r
           end
      else l
  | [] => l
  end.

(** Four sextets make three bytes; a final group of three makes two
    bytes and a final group of two makes one, the unused low bits being
    discarded. *)
Fixpoint octets (vs : list N) : list N :=
  match vs with
  | a :: b :: c :: d :: rest =>
      let w := (a * 262144 + b * 4096 + c * 64 + d)%N in
      (w / 65536)%N :: ((w / 256) mod 256)%N :: (w mod 256)%N :: octets rest
  | [a; b; c] =>
      let w := (a * 4096 + b * 64 + c)%N in
      [(w / 1024)%N; ((w / 4) mod 256)%N]
  | [a; b] => [((a * 64 + b) / 16)%N]
  | _ => []
  end.

(** Forgiving-base64 decode, the algorithm [atob] runs: whitespace is
    removed; when the length is then a multiple of four, one or two
    trailing [=] are removed; a length of remainder one and any
    character outside the alphabet are failures.  The result is the
    list of decoded byte values, [None] standing for the
    [InvalidCharacterError] that [atob] throws. *)
Definition forgiving_decode (data : string) : option (list N) :=
  let d := filter (fun c => negb (is_ascii_whitespace c))
                  (list_ascii_of_string data) in
  let d := if Nat.eqb (List.length d mod 4) 0 then strip_padding d else d in
  if Nat.eqb (List.length d mod 4) 1 then None
  else option_map octets (sextets d).

(** [atob(s)]: the binary string, one character per decoded byte. *)
Definition atob (s : string) : Completion string :=
  match forgiving_decode s with
  | Some bytes => Return (string_of_list_ascii (map ascii_of_N bytes))
  | None => Throw (DOMException "InvalidCharacterError")
  end.

End Base64.

(* ================================================================== *)
(** * static/push.js: [urlBase64ToUint8Array] *)
(* ================================================================== *)

(** A [Uint8Array], as the list of its elements. *)
Definition Uint8Array := list N.

(** [rawData.charCodeAt(i)] for every index [i] of [rawData]. *)
Definition charCodes (rawData : string) : Uint8Array :=
map N_of_ascii (list_ascii_of_string rawData).

Definition padding_of (base64String : string) : string :=
JsString.repeat "=" ((4 - String.length base64String mod 4) mod 4).

Definition to_standard_alphabet (s : string) : string :=
JsString.replace_all "_" "/" (JsString.replace_all "-" "+" s).

Definition urlBase64ToUint8Array (base64String : string) : Completion Uint8Array :=
let padding := padding_of base64String in
let base64 := to_standard_alphabet (base64String ++ padding)%string in
match Base64.atob base64 with
| Throw e => Throw e
| Return rawData => Return (charCodes rawData)
end.


(* ================================================================== *)
(** * JavaScript values *)
(* ================================================================== *)

(** The values a JSON payload can hold, and [undefined].  Numbers are
    IEEE 754 doubles. *)
Inductive JsValue : Type :=
| JUndefined
| JNull
| JBool (b : bool)
| JNum (x : spec_float)
| JStr (s : string)
| JArr (elements : list JsValue)
| JObj (properties : list (string * JsValue)).

(** [ToBoolean]: [undefined], [null], [false], [0], [-0], [NaN] and the
    empty string are falsy, everything else is truthy. *)
Definition truthy (v : JsValue) : bool :=
  match v with
  | JUndefined | JNull => false
  | JBool b => b
  | JNum (S754_zero _) | JNum S754_nan => false
  | JNum _ => true
  | JStr s => negb (String.eqb s "")
  | JArr _ | JObj _ => true
  end.

(** [a || b]. *)
Definition js_or (a b : JsValue) : JsValue := if truthy a then a else b.

Fixpoint assoc (k : string) (props : list (string * JsValue)) : option JsValue :=
  match props with
  | [] => None
  | (k', v) :: rest => if String.eqb k k' then Some v else assoc k rest
  end.

(** [v.k], for the property names the code reads ([title], [body],
    [data] and [url]): none of them is defined on a built-in prototype,
    so only an object's own properties can answer (a parsed object
    lists each name once); reading a property of [undefined] or [null]
    throws a [TypeError]. *)
Definition get (v : JsValue) (k : string) : Completion JsValue :=
  match v with
  | JUndefined | JNull => Throw TypeError
  | JObj props =>
      match assoc k props with
      | Some x => Return x
      | None => Return JUndefined
      end
  | _ => Return JUndefined
  end.

(** The platform subscription object [{endpoint, keys: {p256dh, auth}}]. *)
Record Subscription : Type := {
  endpoint : string;
  p256dh : string;
  auth : string
}.

(** The pure services of the host that the code calls and that are not
    part of the repository. *)
Class Platform : Type := {
  (** [JSON.parse], [None] when it throws a [SyntaxError] *)
  JSON_parse : string -> option JsValue;
  (** [JSON.stringify] of a subscription object *)
  JSON_stringify : Subscription -> string;
  (** [Number.prototype.toString] *)
  Number_toString : spec_float -> string
}.

(** [ToString], the conversion applied to a value used as a string.
    An object is converted by its [toString] method: [Object.prototype]'s
    answers ["[object Object]"], but an own property named [toString]
    hides it, and as no value of a JSON object is callable (and
    [valueOf] returns the object itself) the conversion then throws a
    [TypeError].  An array is converted by [join]: its elements,
    [undefined] and [null] counting as empty, separated by commas; the
    first element that does not convert makes the whole conversion
    throw. *)
Fixpoint ToString `{Platform} (v : JsValue) : Completion string :=
  match v with
  | JUndefined => Return "undefined"
  | JNull => Return "null"
  | JBool true => Return "true"
  | JBool false => Return "false"
  | JNum x => Return (Number_toString x)
  | JStr s => Return s
  | JArr l =>
      (fix join (l : list JsValue) : Completion string :=
         match l with
         | [] => Return ""
         | x :: l' =>
             match match x with
                   | JUndefined | JNull => Return ""
                   | _ => ToString x
                   end with
             | Throw e => Throw e
             | Return e =>
                 match l' with
                 | [] => Return e
                 | _ :: _ =>
                     match join l' with
                     | Throw e' => Throw e'
                     | Return r => Return (e ++ "," ++ r)%string
                     end
                 end
             end
         end) l
  | JObj props =>
      match assoc "toString" props with
      | Some _ => Throw TypeError
      | None => Return "[object Object]"
      end
  end.

(* ================================================================== *)
(** * The browser as seen by static/push.js *)
(* ================================================================== *)

(** The value of a settled promise. *)
Inductive Settled (A : Type) : Type :=
| Resolved (value : A)
| Rejected (reason : JsError).
Arguments Resolved {A} value.
Arguments Rejected {A} reason.

Inductive NotificationPermission : Type := granted | denied | default.

Definition is_granted (p : NotificationPermission) : bool :=
  match p with granted => true | _ => false end.

(** An HTTP response: its status and its body text. *)
Record Response : Type := {
  status : N;
  text : string
}.

(** [res.ok]: the status is in the range 200-299. *)
Definition ok (res : Response) : bool :=
  ((200 <=? status res) && (status res <=? 299))%N.

(** The request [fetch] is called with. *)
Record Request : Type := {
  req_url : string;
  req_method : string;
  req_content_type : string;
  req_body : string
}.

(** The platform calls the code makes, in the order it makes them. *)
Inductive Event : Type :=
| EvRegister (scriptURL : string)
| EvRequestPermission
| EvGetSubscription
| EvSubscribe (userVisibleOnly : bool) (applicationServerKey : Uint8Array)
| EvFetch (request : Request)
| EvUnsubscribe (sub : Subscription).

(** A worker registration; its push manager holds at most one active
    subscription. *)
Record Registration : Type := {
  pushSubscription : option Subscription
}.

(** The state of the browser: whether ['serviceWorker' in navigator],
    the registration of [/static/sw.js] if there is one, and the trace
    of the platform calls made so far. *)
Record World : Type := {
  sw_supported : bool;
  registration : option Registration;
  trace : list Event
}.

(** How the outside settles each platform promise; the index is the
    number of platform calls made before it. *)
Record Env : Type := {
  register_reply : nat -> Settled unit;
  permission_reply : nat -> NotificationPermission;
  getSubscription_reply : nat -> Settled unit;
  subscribe_reply : nat -> Settled Subscription;
  fetch_reply : nat -> Settled Response;
  unsubscribe_reply : nat -> Settled bool
}.

(** The active subscription of the worker registration, if any. *)
Definition active_subscription (w : World) : option Subscription :=
  match registration w with
  | Some r => pushSubscription r
  | None => None
  end.

Definition log (e : Event) (w : World) : World :=
  {| sw_supported := sw_supported w;
     registration := registration w;
     trace := trace w ++ [e] |}.

Definition set_registration (r : option Registration) (w : World) : World :=
  {| sw_supported := sw_supported w;
     registration := r;
     trace := trace w |}.

(** The registration of the worker, created if there is none. *)
Definition ensure_registration (w : World) : World :=
  match registration w with
  | Some _ => w
  | None => set_registration (Some {| pushSubscription := None |}) w
  end.

(** The number of platform calls made so far. *)
Definition now (w : World) : nat := List.length (trace w).

(** Asynchronous code: a world transformer that returns or throws. *)
Definition Async (A : Type) : Type := World -> Completion A * World.

Definition ret {A} (a : A) : Async A := fun w => (Return a, w).

Definition throw {A} (e : JsError) : Async A := fun w => (Throw e, w).

Definition bind {A B} (m : Async A) (k : A -> Async B) : Async B :=
  fun w =>
    match m w with
    | (Return a, w') => k a w'
    | (Throw e, w') => (Throw e, w')
    end.

Notation "x <- m ;; k" := (bind m (fun x => k))
  (at level 61, m at next level, right associativity).
Notation "m ;;; k" := (bind m (fun _ => k))
  (at level 61, right associativity).

(** A reference to the worker registration, as [register] resolves it. *)
Inductive RegistrationRef : Type := the_registration.

Section PushJs.

Context `{Platform} (env : Env).

(** ** The platform promises the code awaits *)

(** [navigator.serviceWorker.register(scriptURL)]: registers the worker
    unless it is registered already, and resolves with the registration. *)
Definition serviceWorker_register (scriptURL : string) : Async RegistrationRef :=
  fun w =>
    let w1 := log (EvRegister scriptURL) w in
    match register_reply env (now w) with
    | Rejected e => (Throw e, w1)
    | Resolved _ => (Return the_registration, ensure_registration w1)
    end.

(** [Notification.requestPermission()]. *)
Definition Notification_requestPermission : Async NotificationPermission :=
  fun w =>
    (Return (permission_reply env (now w)), log EvRequestPermission w).

(** [reg.pushManager.getSubscription()]: resolves with the active
    subscription, or with [null]. *)
Definition pushManager_getSubscription (reg : RegistrationRef)
  : Async (option Subscription) :=
  fun w =>
    let w1 := log EvGetSubscription w in
    match getSubscription_reply env (now w) with
    | Rejected e => (Throw e, w1)
    | Resolved _ => (Return (active_subscription w1), w1)
    end.

(** [reg.pushManager.subscribe(options)]: resolves with the active
    subscription when there is one, and otherwise makes the subscription
    issued by the push service the active one. *)
Definition pushManager_subscribe (reg : RegistrationRef)
    (userVisibleOnly : bool) (applicationServerKey : Uint8Array)
  : Async Subscription :=
  fun w =>
    let w1 := log (EvSubscribe userVisibleOnly applicationServerKey) w in
    match subscribe_reply env (now w) with
    | Rejected e => (Throw e, w1)
    | Resolved fresh =>
        match active_subscription w1 with
        | Some s => (Return s, w1)
        | None =>
            (Return fresh,
             set_registration (Some {| pushSubscription := Some fresh |}) w1)
        end
    end.

(** [sub.unsubscribe()]: resolves with [true] once the subscription is
    revoked. *)
Definition subscription_unsubscribe (sub : Subscription) : Async bool :=
  fun w =>
    let w1 := log (EvUnsubscribe sub) w in
    match unsubscribe_reply env (now w) with
    | Rejected e => (Throw e, w1)
    | Resolved true =>
        (Return true, set_registration (Some {| pushSubscription := None |}) w1)
    | Resolved false => (Return false, w1)
    end.

(** [fetch(url, init)]. *)
Definition fetch (request : Request) : Async Response :=
  fun w =>
    let w1 := log (EvFetch request) w in
    match fetch_reply env (now w) with
    | Rejected e => (Throw e, w1)
    | Resolved res => (Return res, w1)
    end.

(** ** The functions of static/push.js *)

Definition registerSW : Async (option RegistrationRef) :=
  fun w =>
    if negb (sw_supported w) then ret None w
    else (reg <- serviceWorker_register "/static/sw.js" ;; ret (Some reg)) w.

Definition subscribePush (vapidPublicKey : string) : Async Subscription :=
  reg <- registerSW ;;
  match reg with
  | None => throw (Error "Service Worker not supported")
  | Some reg =>
      perm <- Notification_requestPermission ;;
      if negb (is_granted perm)
      then throw (Error "Notifications permission not granted")
      else
        existing <- pushManager_getSubscription reg ;;
        match existing with
        | Some existing => ret existing
        | None =>
            match urlBase64ToUint8Array vapidPublicKey with
            | Throw e => throw e
            | Return key => pushManager_subscribe reg true key
            end
        end
  end.

Definition postJSON (url : string) (data : Subscription) : Async JsValue :=
  res <- fetch {| req_url := url;
                  req_method := "POST";
                  req_content_type := "application/json";
                  req_body := JSON_stringify data |} ;;
  if negb (ok res)
  then
    let t := text res in
    throw (Error (if String.eqb t "" then "Request failed" else t))
  else
    ret (match JSON_parse (text res) with
         | Some v => v
         | None => JObj []
         end).

Definition enable (vapidPublicKey : string) : Async bool :=
  sub <- subscribePush vapidPublicKey ;;
  postJSON "/push/subscribe" sub ;;;
  ret true.

Definition disable : Async bool :=
  reg <- registerSW ;;
  match reg with
  | None => ret true
  | Some reg =>
      sub <- pushManager_getSubscription reg ;;
      match sub with
      | Some sub =>
          postJSON "/push/unsubscribe" sub ;;;
          subscription_unsubscribe sub ;;;
          ret true
      | None => ret true
      end
  end.

End PushJs.

(* ================================================================== *)
(** * The service worker (/static/sw.js) *)
(* ================================================================== *)

(** The [options] argument of [showNotification]. *)
Record NotificationOptions : Type := {
  opt_body : JsValue;
  opt_icon : string;
  opt_badge : string;
  opt_data : JsValue
}.

Inductive ClientType : Type := window | worker | sharedworker.

Definition ClientType_eqb (a b : ClientType) : bool :=
  match a, b with
  | window, window | worker, worker | sharedworker, sharedworker => true
  | _, _ => false
  end.

(** A client of the worker's origin. *)
Record Client : Type := {
  client_url : string;
  client_type : ClientType;
  client_controlled : bool
}.

(** What a handler asks of the platform, in order. *)
Inductive Action : Type :=
| ShowNotification (title : JsValue) (options : NotificationOptions)
| CloseNotification
| MatchAll (type : ClientType) (includeUncontrolled : bool)
| Focus (client : Client)
| OpenWindow (url : string).

(** An event handler run to its end: the actions it took, and whether
    it returned or threw (or, for work it handed to [event.waitUntil],
    whether that work was fulfilled or rejected). *)
Definition Handled : Type := list Action * Completion unit.

(** A [push] event: [event.data] is [null] or carries the payload text. *)
Record PushEvent : Type := {
  event_data : option string
}.

(** A [notificationclick] event: [event.notification.data]. *)
Record NotificationClickEvent : Type := {
  notification_data : JsValue
}.

(** The worker's global scope: the open clients of the origin, in the
    order [matchAll] lists them, and whether [clients.openWindow] is
    defined. *)
Record ServiceWorkerGlobalScope : Type := {
  clients : list Client;
  clients_openWindow : bool
}.

(** [clients.matchAll({type, includeUncontrolled})]. *)
Definition clients_matchAll (type : ClientType) (includeUncontrolled : bool)
    (self : ServiceWorkerGlobalScope) : list Client :=
  filter (fun c => ClientType_eqb (client_type c) type
                   && (includeUncontrolled || client_controlled c))
         (clients self).

(** ["focus" in client]: only window clients have a [focus] method. *)
Definition has_focus (client : Client) : bool :=
  ClientType_eqb (client_type client) window.

Section ServiceWorker.

Context `{Platform}.

(** [event.data.json()], with [event.data] possibly [null]. *)
Definition event_data_json (event : PushEvent) : Completion JsValue :=
  match event_data event with
  | None => Throw TypeError
  | Some t =>
      match JSON_parse t with
      | Some v => Return v
      | None => Throw SyntaxError
      end
  end.

(** Lines 10-11 of the [push] listener: [data] after the [try]/[catch]. *)
Definition push_payload (event : PushEvent) : JsValue :=
  match event_data_json event with
  | Return v => v
  | Throw _ =>
      JObj [("title", JStr "M&N Driver Portal");
            ("body", JStr match event_data event with
                          | Some t => t
                          | None => ""
                          end)]
  end.

(** Lines 12-19 of the [push] listener: the notification shown for
    [data]. *)
Definition notify (data : JsValue) : Handled :=
  match get data "title" with
  | Throw e => ([], Throw e)
  | Return t =>
      let title := js_or t (JStr "M&N Driver Portal") in
      match get data "body" with
      | Throw e => ([], Throw e)
      | Return b =>
          match get data "data" with
          | Throw e => ([], Throw e)
          | Return d =>
              let options := {| opt_body := js_or b (JStr "");
                                opt_icon := "/static/logo.png";
                                opt_badge := "/static/logo.png";
                                opt_data := js_or d (JObj []) |} in
              ([ShowNotification title options], Return tt)
          end
      end
  end.

(** The [push] listener. *)
Definition onPush (event : PushEvent) : Handled :=
  notify (push_payload event).

(** The target of a click:
    [(data && data.url) ? data.url : "/portal"]. *)
Definition click_url (data : JsValue) : Completion JsValue :=
  match (if truthy data then get data "url" else Return data) with
  | Throw e => Throw e
  | Return c => if truthy c then get data "url" else Return (JStr "/portal")
  end.

(** The [for (const client of clientList)] loop of the click handler:
    the client it returns [client.focus()] for, if any.  Each turn
    evaluates [client.url.includes(url)], which converts [url] to a
    string and throws if that conversion does. *)
Fixpoint client_to_focus (url : JsValue) (clientList : list Client)
  : Completion (option Client) :=
  match clientList with
  | [] => Return None
  | client :: rest =>
      match ToString url with
      | Throw e => Throw e
      | Return searchString =>
          if JsString.includes (client_url client) searchString
             && has_focus client
          then Return (Some client)
          else client_to_focus url rest
      end
  end.

(** The [notificationclick] listener, with the callback it chains on
    [matchAll].  [Throw e] stands for the promise handed to
    [event.waitUntil] being rejected with [e]: the callback threw, or
    [openWindow] could not convert its argument. *)
Definition onNotificationClick (event : NotificationClickEvent)
    (self : ServiceWorkerGlobalScope) : Handled :=
  match click_url (notification_data event) with
  | Throw e => ([CloseNotification], Throw e)
  | Return url =>
      let clientList := clients_matchAll window true self in
      match client_to_focus url clientList with
      | Throw e => ([CloseNotification; MatchAll window true], Throw e)
      | Return (Some client) =>
          ([CloseNotification; MatchAll window true; Focus client], Return tt)
      | Return None =>
          if clients_openWindow self
          then match ToString url with
               | Throw e => ([CloseNotification; MatchAll window true], Throw e)
               | Return location =>
                   ([CloseNotification; MatchAll window true;
                     OpenWindow location], Return tt)
               end
          else ([CloseNotification; MatchAll window true], Return tt)
      end
  end.

End ServiceWorker.

(* ================================================================== *)
(** * Reference notions used by the statements *)
(* ================================================================== *)

(** The requests [enable] and [disable] send for a subscription. *)
Definition post_request `{Platform} (url : string) (sub : Subscription) : Request :=
  {| req_url := url;
     req_method := "POST";
     req_content_type := "application/json";
     req_body := JSON_stringify sub |}.

(** The platform calls of an [enable] that finds the subscription [s]. *)
Definition enable_calls `{Platform} (s : Subscription) : list Event :=
  [EvRegister "/static/sw.js"; EvRequestPermission; EvGetSubscription;
   EvFetch (post_request "/push/subscribe" s)].

(** The platform calls of a [disable] that finds the subscription [s],
    up to and including the request to the server. *)
Definition disable_calls `{Platform} (s : Subscription) : list Event :=
  [EvRegister "/static/sw.js"; EvGetSubscription;
   EvFetch (post_request "/push/unsubscribe" s)].

(** The options of a notification with the fixed icon and badge. *)
Definition default_options (body : JsValue) (data : JsValue) : NotificationOptions :=
  {| opt_body := body;
     opt_icon := "/static/logo.png";
     opt_badge := "/static/logo.png";
     opt_data := data |}.

(** The message of the error [postJSON] throws for a response that is
    not [ok]. *)
Definition rejection_message (res : Response) : string :=
  if String.eqb (text res) "" then "Request failed" else text res.

(** The value of the property [k] of a parsed object, [undefined] when
    it has none. *)
Definition field (k : string) (props : list (string * JsValue)) : JsValue :=
  match assoc k props with
  | Some v => v
  | None => JUndefined
  end.

Definition is_string (v : JsValue) : bool :=
  match v with JStr _ => true | _ => false end.

(** [typeof v === "object"] for a value that is not [null]. *)
Definition is_object (v : JsValue) : bool :=
  match v with JObj _ | JArr _ => true | _ => false end.

(** The target of a click, as the code resolves it: [data.url],
    converted to a string, when [data] is an object whose [url] is
    truthy, the portal path otherwise. *)
Definition click_target `{Platform} (data : JsValue) : Completion string :=
  match data with
  | JObj props =>
      if truthy (field "url" props) then ToString (field "url" props)
      else Return "/portal"
  | _ => Return "/portal"
  end.

(** Whether some open client is a window client. *)
Definition has_window_client (self : ServiceWorkerGlobalScope) : bool :=
  existsb (fun c => ClientType_eqb (client_type c) window) (clients self).

(** A window client whose URL contains [url]. *)
Definition matches (url : string) (c : Client) : bool :=
  ClientType_eqb (client_type c) window && JsString.includes (client_url c) url.

(** Decoding a standard base64 string: [atob], then the byte values. *)
Definition decode_standard (std : string) : Completion Uint8Array :=
  match Base64.atob std with
  | Throw e => Throw e
  | Return rawData => Return (charCodes rawData)
  end.

(** [url_variant std u]: [u] is [std] with some (or all, or none) of its
    [+] written [-] and of its [/] written [_]. *)
Inductive url_variant : string -> string -> Prop :=
| uv_empty : url_variant "" ""
| uv_keep c s u : url_variant s u -> url_variant (String c s) (String c u)
| uv_minus s u : url_variant s u -> url_variant (String "+" s) (String "-" u)
| uv_underscore s u : url_variant s u -> url_variant (String "/" s) (String "_" u).

(** A string over the standard alphabet has no [-] and no [_]. *)
Fixpoint is_standard (s : string) : bool :=
  match s with
  | EmptyString => true
  | String c s' =>
      negb (Ascii.eqb c "-") && negb (Ascii.eqb c "_") && is_standard s'
  end.

(** The characters [atob] can accept once the URL-safe ones are mapped
    back: the 64 of the alphabet, [-] and [_], [=], and ASCII
    whitespace. *)
Definition acceptable (c : ascii) : bool :=
  match Base64.sextet c with Some _ => true | None => false end
  || Ascii.eqb c "-" || Ascii.eqb c "_" || Ascii.eqb c "="
  || Base64.is_ascii_whitespace c.


(* ================================================================== *)
(** * A host to run the code on *)
(* ================================================================== *)

Definition quoted (s : string) : string :=
  String (ascii_of_nat 34) (s ++ String (ascii_of_nat 34) "")%string.

(** The payload text [{"data":"x"}] and the value it parses to. *)
Definition payload_data_x : string :=
  ("{" ++ quoted "data" ++ ":" ++ quoted "x" ++ "}")%string.

(** The payload text [{"body":true}]. *)
Definition payload_body_true : string :=
  ("{" ++ quoted "body" ++ ":true}")%string.

(** The payload text [{"title":[]}]. *)
Definition payload_title_array : string :=
  ("{" ++ quoted "title" ++ ":[]}")%string.

(** The payload text [{"title":"T","body":"B","data":{"url":"/x"}}]. *)
Definition payload_full : string :=
  ("{" ++ quoted "title" ++ ":" ++ quoted "T" ++ ","
       ++ quoted "body" ++ ":" ++ quoted "B" ++ ","
       ++ quoted "data" ++ ":{" ++ quoted "url" ++ ":" ++ quoted "/x" ++ "}}")%string.

(** The JSON texts the examples use, with their values; on these texts
    it is what [JSON.parse] returns. *)
Definition known_json : list (string * JsValue) :=
  [ ("null", JNull);
    ("true", JBool true);
    ("{}", JObj []);
    ("[]", JArr []);
    (payload_data_x, JObj [("data", JStr "x")]);
    (payload_body_true, JObj [("body", JBool true)]);
    (payload_title_array, JObj [("title", JArr [])]);
    (payload_full, JObj [("title", JStr "T"); ("body", JStr "B");
                         ("data", JObj [("url", JStr "/x")])]) ].

(** A host for the examples: its [JSON.parse] knows the texts of
    [known_json] and takes any other text as malformed; its
    [JSON.stringify] writes the subscription as the platform's [toJSON]
    does, for fields that need no escaping; its number printing covers
    zero, [NaN] and the infinities. *)
Definition example_host : Platform :=
  {| JSON_parse := fun t => assoc t known_json;
     JSON_stringify := fun sub =>
       ("{" ++ quoted "endpoint" ++ ":" ++ quoted (endpoint sub) ++ ","
            ++ quoted "expirationTime" ++ ":null,"
            ++ quoted "keys" ++ ":{" ++ quoted "p256dh" ++ ":" ++ quoted (p256dh sub)
            ++ "," ++ quoted "auth" ++ ":" ++ quoted (auth sub) ++ "}}")%string;
     Number_toString := fun x =>
       match x with
       | S754_zero _ => "0"
       | S754_infinity false => "Infinity"
       | S754_infinity true => "-Infinity"
       | _ => "NaN"
       end |}.

Definition sub1 : Subscription :=
  {| endpoint := "https://push.example/send/1"; p256dh := "BPk"; auth := "k9" |}.

Definition sub2 : Subscription :=
  {| endpoint := "https://push.example/send/2"; p256dh := "BQm"; auth := "z3" |}.

(** An environment in which every platform promise resolves, the
    permission request is answered [perm], the push service issues
    [sub2] and the server answers [res]. *)
Definition answering (perm : NotificationPermission) (res : Response) : Env :=
  {| register_reply := fun _ => Resolved tt;
     permission_reply := fun _ => perm;
     getSubscription_reply := fun _ => Resolved tt;
     subscribe_reply := fun _ => Resolved sub2;
     fetch_reply := fun _ => Resolved res;
     unsubscribe_reply := fun _ => Resolved true |}.

(** The same, except that the registration of the worker is refused. *)
Definition refusing_registration : Env :=
  {| register_reply := fun _ => Rejected (DOMException "SecurityError");
     permission_reply := fun _ => granted;
     getSubscription_reply := fun _ => Resolved tt;
     subscribe_reply := fun _ => Resolved sub2;
     fetch_reply := fun _ => Resolved {| status := 200; text := "{}" |};
     unsubscribe_reply := fun _ => Resolved true |}.

Definition ok_200 : Response := {| status := 200; text := "{}" |}.

Definition bad_request_400 : Response := {| status := 400; text := "invalid subscription" |}.

Definition empty_500 : Response := {| status := 500; text := "" |}.

(** A browser with worker support in which the worker was never
    registered. *)
Definition never_registered : World :=
  {| sw_supported := true; registration := None; trace := [] |}.

(** A browser without worker support. *)
Definition unsupported : World :=
  {| sw_supported := false; registration := None; trace := [] |}.

(** A browser in which the worker is registered and [sub1] is active. *)
Definition subscribed : World :=
  {| sw_supported := true;
     registration := Some {| pushSubscription := Some sub1 |};
     trace := [] |}.

Definition portal_tab : Client :=
  {| client_url := "https://drivers.example/portal/today";
     client_type := window;
     client_controlled := false |}.

Definition other_tab : Client :=
  {| client_url := "https://drivers.example/help";
     client_type := window;
     client_controlled := true |}.

(* ================================================================== *)
(** * The service worker's lifecycle listeners *)
(* ================================================================== *)

(** What the [install] and [activate] listeners ask of the platform. *)
Inductive LifecycleAction : Type :=
| SkipWaiting
| ClientsClaim.

(** The [install] listener: [self.skipWaiting()]. *)
Definition onInstall : list LifecycleAction := [SkipWaiting].

(** The [activate] listener: [event.waitUntil(self.clients.claim())]. *)
Definition onActivate : list LifecycleAction := [ClientsClaim].

(* ================================================================== *)
(** * The base64url encoding of a key *)
(* ================================================================== *)

(** The character of the URL-safe alphabet for a six-bit value. *)
Definition url_char (v : N) : ascii :=
  if (v <? 26)%N then ascii_of_N (v + 65)
  else if (v <? 52)%N then ascii_of_N (v + 71)
  else if (v <? 62)%N then ascii_of_N (v - 4)
  else if (v =? 62)%N then "-"%char
  else "_"%char.

(** The six-bit groups of a byte sequence: three bytes make four
    groups, a final pair makes three and a final byte makes two, the
    missing low bits being zero. *)
Fixpoint sextets_of_bytes (bytes : list N) : list N :=
  match bytes with
  | a :: b :: c :: rest =>
      (a / 4)%N :: ((a mod 4) * 16 + b / 16)%N
        :: ((b mod 16) * 4 + c / 64)%N :: (c mod 64)%N
        :: sextets_of_bytes rest
  | [a; b] => [(a / 4)%N; ((a mod 4) * 16 + b / 16)%N; ((b mod 16) * 4)%N]
  | [a] => [(a / 4)%N; ((a mod 4) * 16)%N]
  | [] => []
  end.

(** The unpadded base64url text of a byte sequence, the form in which a
    VAPID public key is handed to [enable]. *)
Definition base64url_encode (bytes : list N) : string :=
  string_of_list_ascii (map url_char (sextets_of_bytes bytes)).

(** The character [to_standard_alphabet] writes for [c]. *)
Definition standard_char (c : ascii) : ascii :=
  if Ascii.eqb (if Ascii.eqb c "-" then "+"%char else c) "_"
  then "/"%char
  else if Ascii.eqb c "-" then "+"%char else c.

(** The characters of the two alphabets. *)
Definition alphabet_char (c : ascii) : bool :=
  match Base64.sextet c with Some _ => true | None => false end
  || Ascii.eqb c "-" || Ascii.eqb c "_".

Fixpoint all_chars (p : ascii -> bool) (s : string) : bool :=
  match s with
  | EmptyString => true
  | String c s' => p c && all_chars p s'
  end.

Definition is_fetch (e : Event) : bool :=
  match e with EvFetch _ => true | _ => false end.

(** The calls that only [enable] may make, and the one that only
    [disable] may make. *)
Definition is_subscribing (e : Event) : bool :=
  match e with
  | EvRequestPermission | EvSubscribe _ _ => true
  | _ => false
  end.

Definition is_unsubscribe (e : Event) : bool :=
  match e with EvUnsubscribe _ => true | _ => false end.

(* ================================================================== *)
(** * Facts about strings and about [atob] *)
(* ================================================================== *)

Lemma replace_all_app c d s t :
  JsString.replace_all c d (s ++ t)%string
  = (JsString.replace_all c d s ++ JsString.replace_all c d t)%string.
Proof.
  induction s as [|x s IH]; simpl; [reflexivity|]. now rewrite IH.
Qed.

Lemma replace_all_repeat c d x n :
  Ascii.eqb x c = false ->
  JsString.replace_all c d (JsString.repeat x n) = JsString.repeat x n.
Proof.
  intros E. induction n as [|n IH]; simpl; [reflexivity|].
  now rewrite E, IH.
Qed.

Lemma to_standard_alphabet_padding s n :
  to_standard_alphabet (s ++ JsString.repeat "=" n)%string
  = (to_standard_alphabet s ++ JsString.repeat "=" n)%string.
Proof.
  unfold to_standard_alphabet.
  rewrite !replace_all_app, !replace_all_repeat by reflexivity.
  reflexivity.
Qed.

Lemma list_ascii_app s t :
  list_ascii_of_string (s ++ t)%string
  = list_ascii_of_string s ++ list_ascii_of_string t.
Proof.
  induction s as [|x s IH]; simpl; [reflexivity|]. now rewrite IH.
Qed.

Lemma length_append s t :
  String.length (s ++ t)%string = String.length s + String.length t.
Proof.
  induction s as [|x s IH]; simpl; [reflexivity|]. now rewrite IH.
Qed.

Lemma length_repeat c n : String.length (JsString.repeat c n) = n.
Proof.
  induction n as [|n IH]; simpl; [reflexivity|]. now rewrite IH.
Qed.

Lemma url_variant_length std u :
  url_variant std u -> String.length u = String.length std.
Proof.
  induction 1; simpl; congruence.
Qed.

Lemma url_variant_standard std u :
  url_variant std u -> is_standard std = true -> to_standard_alphabet u = std.
Proof.
  unfold to_standard_alphabet.
  induction 1 as [|c s u _ IH|s u _ IH|s u _ IH]; simpl; intros Hs.
  - reflexivity.
  - apply andb_prop in Hs as [Hc Hs]. apply andb_prop in Hc as [Hm Hu].
    apply negb_true_iff in Hm, Hu.
    rewrite Hm, Hu, (IH Hs). reflexivity.
  - now rewrite (IH Hs).
  - now rewrite (IH Hs).
Qed.

Lemma is_standard_app s t :
  is_standard (s ++ t)%string = is_standard s && is_standard t.
Proof.
  induction s as [|x s IH]; simpl; [reflexivity|].
  rewrite IH. now rewrite !andb_assoc.
Qed.

(** The number of [=] the code appends is what is missing to a multiple
    of four. *)
Lemma missing_padding len j :
  j <= 3 -> (len + j) mod 4 = 0 -> (4 - len mod 4) mod 4 = j.
Proof.
  intros Hj Hm.
  rewrite <- Nat.Div0.add_mod_idemp_l in Hm.
  pose proof (Nat.mod_upper_bound len 4 ltac:(discriminate)) as Hb.
  destruct (len mod 4) as [|[|[|[|r]]]]; [| | | |lia];
    destruct j as [|[|[|[|j]]]]; try lia; try reflexivity;
    simpl in Hm; discriminate.
Qed.

Lemma sextets_In c l :
  In c l -> Base64.sextet c = None -> Base64.sextets l = None.
Proof.
  induction l as [|x l IH]; simpl; [tauto|].
  intros [->|Hin] Hc.
  - now rewrite Hc.
  - rewrite (IH Hin Hc). now destruct (Base64.sextet x).
Qed.

(** Removing the padding removes at most two trailing [=]. *)
Lemma strip_padding_spec l :
  exists p, l = Base64.strip_padding l ++ p
            /\ (p = [] \/ p = ["="%char] \/ p = ["="%char; "="%char]).
Proof.
  unfold Base64.strip_padding.
  destruct (rev l) as [|a r] eqn:E.
  { exists []. rewrite app_nil_r. auto. }
  assert (L : l = rev r ++ [a]).
  { rewrite <- (rev_involutive l), E. reflexivity. }
  destruct (Ascii.eqb_spec a "="%char) as [->|Ha].
  - destruct r as [|b r'].
    + exists ["="%char]. auto.
    + destruct (Ascii.eqb_spec b "="%char) as [->|Hb].
      * exists ["="%char; "="%char]. split; [|auto].
        rewrite L. simpl. now rewrite <- app_assoc.
      * exists ["="%char]. auto.
  - exists []. rewrite app_nil_r. auto.
Qed.

Lemma strip_padding_In c l :
  In c l -> c <> "="%char -> In c (Base64.strip_padding l).
Proof.
  intros Hin Hc.
  destruct (strip_padding_spec l) as (p & E & Hp).
  rewrite E in Hin. apply in_app_or in Hin as [Hin|Hin]; [exact Hin|].
  destruct Hp as [->|[->| ->]]; simpl in Hin; intuition congruence.
Qed.

Lemma strip_padding_three l :
  Base64.strip_padding (l ++ ["="%char; "="%char; "="%char]) = l ++ ["="%char].
Proof.
  unfold Base64.strip_padding. rewrite rev_app_distr. simpl.
  now rewrite rev_involutive.
Qed.

Lemma forgiving_decode_bad_char s c :
  In c (list_ascii_of_string s) ->
  Base64.sextet c = None ->
  Base64.is_ascii_whitespace c = false ->
  c <> "="%char ->
  Base64.forgiving_decode s = None.
Proof.
  intros Hin Hs Hw Hc. unfold Base64.forgiving_decode.
  set (d := filter _ _).
  assert (Hd : In c d).
  { apply filter_In. split; [exact Hin|]. now rewrite Hw. }
  assert (Hno : forall l, In c l -> Base64.sextets l = None)
    by (intros l Hl; exact (sextets_In c l Hl Hs)).
  destruct (Nat.eqb (List.length d mod 4) 0).
  - rewrite (Hno _ (strip_padding_In c d Hd Hc)). now destruct (Nat.eqb _ 1).
  - rewrite (Hno _ Hd). now destruct (Nat.eqb _ 1).
Qed.

Lemma forgiving_decode_three_padding s :
  Base64.forgiving_decode (s ++ "===")%string = None.
Proof.
  unfold Base64.forgiving_decode.
  rewrite list_ascii_app, filter_app. simpl (filter _ (list_ascii_of_string "===")).
  set (y := filter _ (list_ascii_of_string s)).
  assert (Hno : forall l, In "="%char l -> Base64.sextets l = None)
    by (intros l Hl; exact (sextets_In _ l Hl eq_refl)).
  destruct (Nat.eqb (List.length _ mod 4) 0).
  - rewrite strip_padding_three, Hno by (apply in_or_app; right; now left).
    now destruct (Nat.eqb _ 1).
  - rewrite Hno by (apply in_or_app; right; now left).
    now destruct (Nat.eqb _ 1).
Qed.

Lemma to_standard_alphabet_In c s :
  In c (list_ascii_of_string s) ->
  Ascii.eqb c "-" = false -> Ascii.eqb c "_" = false ->
  In c (list_ascii_of_string (to_standard_alphabet s)).
Proof.
  unfold to_standard_alphabet. intros Hin Hm Hu.
  induction s as [|x s IH]; simpl in *; [exact Hin|].
  destruct Hin as [->|Hin].
  - left. now rewrite Hm, Hu.
  - right. exact (IH Hin).
Qed.

(* ================================================================== *)
(** * The decoder on concrete strings *)
(* ================================================================== *)

Example atob_Man : Base64.atob "TWFu" = Return "Man".
Proof. reflexivity. Qed.

Example atob_one_padding : Base64.atob "TWE=" = Return "Ma".
Proof. reflexivity. Qed.

Example atob_two_padding : Base64.atob "TQ==" = Return "M".
Proof. reflexivity. Qed.

Example atob_no_padding : Base64.atob "TQ" = Return "M".
Proof. reflexivity. Qed.

Example atob_partial_padding :
  Base64.atob "TQ=" = Throw (DOMException "InvalidCharacterError").
Proof. reflexivity. Qed.

Example atob_remainder_one :
  Base64.atob "TWFuT" = Throw (DOMException "InvalidCharacterError").
Proof. reflexivity. Qed.

Example atob_url_alphabet :
  Base64.atob "-_8=" = Throw (DOMException "InvalidCharacterError").
Proof. reflexivity. Qed.

Example decode_ABC : urlBase64ToUint8Array "QUJD" = Return [65; 66; 67]%N.
Proof. reflexivity. Qed.

Example decode_unpadded : urlBase64ToUint8Array "QUI" = Return [65; 66]%N.
Proof. reflexivity. Qed.

Example decode_url_safe : urlBase64ToUint8Array "-_8" = Return [251; 255]%N.
Proof. reflexivity. Qed.

Example decode_padded : urlBase64ToUint8Array "-_8=" = Return [251; 255]%N.
Proof. reflexivity. Qed.

Example decode_empty : urlBase64ToUint8Array "" = Return [].
Proof. reflexivity. Qed.

(* ================================================================== *)
(** * Properties of [urlBase64ToUint8Array] *)
(* ================================================================== *)

(** C9.  An input whose length is congruent to 1 modulo 4 gets three [=]
    appended, which no base64 string can end with: [atob] throws, and so
    does [urlBase64ToUint8Array], instead of returning bytes. *)
Theorem urlBase64ToUint8Array_length_1_mod_4 (base64String : string) :
  String.length base64String mod 4 = 1 ->
  padding_of base64String = "==="
  /\ urlBase64ToUint8Array base64String
     = Throw (DOMException "InvalidCharacterError").
Proof.
  intros Hlen.
  assert (Hp : padding_of base64String = "===")
    by (unfold padding_of; now rewrite Hlen).
  split; [exact Hp|].
  unfold urlBase64ToUint8Array. rewrite Hp.
  change "===" with (JsString.repeat "=" 3).
  rewrite to_standard_alphabet_padding.
  unfold Base64.atob. simpl JsString.repeat.
  now rewrite forgiving_decode_three_padding.
Qed.

Lemma urlBase64ToUint8Array_length_1_mod_4_witness :
  String.length "QUJDR" mod 4 = 1
  /\ urlBase64ToUint8Array "QUJDR" = Throw (DOMException "InvalidCharacterError").
Proof.
  split; [reflexivity|].
  apply (urlBase64ToUint8Array_length_1_mod_4 "QUJDR"). reflexivity.
Defined.

(** C6.  Decoding is a function of the input alone.  Take a standard
    base64 string [std] whose length is a multiple of four, remove [j]
    (0 to 3) of its trailing [=] and write any of its [+] as [-] and of
    its [/] as [_]: decoding the result gives what decoding [std] gives.
    And decoding fails whenever [atob] rejects the padded string, which
    it does as soon as the input holds a character that is neither of
    the two alphabets, nor [=], nor ASCII whitespace. *)
Theorem urlBase64ToUint8Array_base64url :
  (forall (std core u : string) (j : nat),
      j <= 3 ->
      std = (core ++ JsString.repeat "=" j)%string ->
      String.length std mod 4 = 0 ->
      is_standard std = true ->
      url_variant core u ->
      urlBase64ToUint8Array u = decode_standard std)
  /\ (forall (u : string) (c : ascii),
         In c (list_ascii_of_string u) ->
         acceptable c = false ->
         urlBase64ToUint8Array u = Throw (DOMException "InvalidCharacterError"))
  /\ (forall (u : string) (e : JsError),
         Base64.atob (to_standard_alphabet (u ++ padding_of u)%string) = Throw e ->
         urlBase64ToUint8Array u = Throw e).
Proof.
  split; [|split].
  - intros std core u j Hj -> Hlen Hstd Hv.
    rewrite length_append, length_repeat in Hlen.
    rewrite is_standard_app in Hstd. apply andb_prop in Hstd as [Hcore _].
    unfold urlBase64ToUint8Array, decode_standard, padding_of.
    rewrite (url_variant_length _ _ Hv), (missing_padding _ _ Hj Hlen).
    rewrite to_standard_alphabet_padding, (url_variant_standard _ _ Hv Hcore).
    reflexivity.
  - intros u c Hin Hacc.
    unfold acceptable in Hacc.
    repeat (apply orb_false_elim in Hacc as [Hacc ?]).
    assert (Hs : Base64.sextet c = None)
      by (destruct (Base64.sextet c); [discriminate|reflexivity]).
    unfold urlBase64ToUint8Array, Base64.atob.
    rewrite (forgiving_decode_bad_char _ c); auto.
    + apply to_standard_alphabet_In; auto.
      rewrite list_ascii_app. apply in_or_app. now left.
    + intros ->. discriminate.
  - intros u e He. unfold urlBase64ToUint8Array. now rewrite He.
Qed.

Lemma urlBase64ToUint8Array_base64url_witness :
  urlBase64ToUint8Array "-_8" = decode_standard "+/8="
  /\ decode_standard "+/8=" = Return [251; 255]%N
  /\ urlBase64ToUint8Array "QU*D" = Throw (DOMException "InvalidCharacterError").
Proof.
  split; [|split].
  - apply (proj1 urlBase64ToUint8Array_base64url "+/8=" "+/8" "-_8" 1).
    + lia.
    + reflexivity.
    + reflexivity.
    + reflexivity.
    + apply uv_minus, uv_underscore, uv_keep, uv_empty.
  - reflexivity.
  - apply (proj1 (proj2 urlBase64ToUint8Array_base64url) "QU*D" "*"%char).
    + simpl. tauto.
    + reflexivity.
Defined.

(* ================================================================== *)
(** * The trace of platform calls *)
(* ================================================================== *)

Arguments now : simpl never.
Arguments log : simpl never.
Arguments set_registration : simpl never.
Arguments ensure_registration : simpl never.
Arguments active_subscription : simpl never.

Lemma now_log e w : now (log e w) = S (now w).
Proof.
  unfold now, log; simpl. rewrite length_app. simpl. lia.
Qed.

Lemma now_set_registration r w : now (set_registration r w) = now w.
Proof. reflexivity. Qed.

Lemma now_ensure_registration w : now (ensure_registration w) = now w.
Proof. unfold ensure_registration. now destruct (registration w). Qed.

Lemma active_log e w : active_subscription (log e w) = active_subscription w.
Proof. reflexivity. Qed.

Lemma active_ensure_registration w :
  active_subscription (ensure_registration w) = active_subscription w.
Proof.
  unfold ensure_registration, active_subscription.
  destruct (registration w) eqn:E; simpl; [now rewrite E|reflexivity].
Qed.

Lemma trace_ensure_registration w : trace (ensure_registration w) = trace w.
Proof. unfold ensure_registration. now destruct (registration w). Qed.

Lemma trace_log e w : trace (log e w) = trace w ++ [e].
Proof. reflexivity. Qed.

Lemma trace_set_registration r w : trace (set_registration r w) = trace w.
Proof. reflexivity. Qed.

Lemma active_set_registration r w :
  active_subscription (set_registration (Some r) w) = pushSubscription r.
Proof. reflexivity. Qed.

Lemma app_single_cons {A} (l : list A) (a : A) (m : list A) :
  (l ++ [a]) ++ m = l ++ a :: m.
Proof. now rewrite <- app_assoc. Qed.

Create Rewrite HintDb world.
#[local] Hint Rewrite now_log now_set_registration now_ensure_registration
  active_log active_ensure_registration active_set_registration
  trace_log trace_set_registration trace_ensure_registration
  @app_single_cons : world.

Lemma trace_neq_app (l es : list Event) : es <> [] -> l <> l ++ es.
Proof.
  intros Hes E. apply Hes.
  apply (app_inv_head l). now rewrite app_nil_r.
Qed.

Section PushJsFacts.

Context `{Platform} (env : Env).

(** ** [registerSW] *)

Lemma registerSW_unsupported w :
  sw_supported w = false -> registerSW env w = (Return None, w).
Proof.
  intros E. unfold registerSW. now rewrite E.
Qed.

Lemma registerSW_resolved w :
  sw_supported w = true ->
  register_reply env (now w) = Resolved tt ->
  registerSW env w
  = (Return (Some the_registration),
     ensure_registration (log (EvRegister "/static/sw.js") w)).
Proof.
  intros E R. unfold registerSW, bind, ret, serviceWorker_register.
  now rewrite E, R.
Qed.

Lemma registerSW_rejected w e :
  sw_supported w = true ->
  register_reply env (now w) = Rejected e ->
  registerSW env w = (Throw e, log (EvRegister "/static/sw.js") w).
Proof.
  intros E R. unfold registerSW, bind, ret, serviceWorker_register.
  now rewrite E, R.
Qed.

End PushJsFacts.

Ltac step :=
  match goal with
  | |- context [sw_supported ?w] =>
      is_var w; destruct (sw_supported w) eqn:?
  | |- context [match register_reply ?e ?n with _ => _ end] =>
      destruct (register_reply e n) as [[]|?] eqn:?
  | |- context [is_granted (permission_reply ?e ?n)] =>
      destruct (permission_reply e n) eqn:?
  | |- context [match getSubscription_reply ?e ?n with _ => _ end] =>
      destruct (getSubscription_reply e n) as [[]|?] eqn:?
  | |- context [match subscribe_reply ?e ?n with _ => _ end] =>
      destruct (subscribe_reply e n) as [?|?] eqn:?
  | |- context [match fetch_reply ?e ?n with _ => _ end] =>
      destruct (fetch_reply e n) as [?|?] eqn:?
  | |- context [match unsubscribe_reply ?e ?n with _ => _ end] =>
      destruct (unsubscribe_reply e n) as [[|]|?] eqn:?
  | |- context [active_subscription ?w] =>
      is_var w; destruct (active_subscription w) eqn:?
  | |- context [match urlBase64ToUint8Array ?k with _ => _ end] =>
      destruct (urlBase64ToUint8Array k) eqn:?
  | |- context [ok ?r] => destruct (ok r) eqn:?
  end.

Ltac norm := simpl; autorewrite with world; simpl.

(** Runs the code of push.js symbolically, one platform call at a time,
    splitting on how each promise settles. *)
Ltac run :=
  unfold enable, disable, subscribePush, postJSON, registerSW,
    serviceWorker_register, Notification_requestPermission,
    pushManager_getSubscription, pushManager_subscribe,
    subscription_unsubscribe, fetch, bind, ret, throw;
  norm; repeat (step; norm).

(** Identifies the values two readings of one reply gave. *)
Ltac tidy :=
  repeat match goal with
    | E : ?x = ?x |- _ => clear E
    | E : Some _ = Some _ |- _ => injection E as E; try subst
    | E : Resolved _ = Resolved _ |- _ => injection E as E; try subst
    | E : Rejected _ = Rejected _ |- _ => injection E as E; try subst
    end.

(** From an equation between two traces of one world, the calls made. *)
Ltac new_calls :=
  match goal with
  | T : trace ?w ++ _ = trace ?w ++ _ |- _ => apply app_inv_head in T
  | T : trace ?w = trace ?w ++ ?es |- _ =>
      rewrite <- (app_nil_r (trace w)) in T at 1; apply app_inv_head in T
  end.

Ltac same_trace :=
  match goal with
  | T : trace ?w ++ _ = trace ?w ++ _ |- _ =>
      apply app_inv_head in T; try discriminate T
  | T : trace ?w = trace ?w ++ _ |- _ =>
      exfalso; revert T; apply trace_neq_app; discriminate
  | T : trace ?w ++ _ = trace ?w |- _ =>
      exfalso; symmetry in T; revert T; apply trace_neq_app; discriminate
  end.

(* ================================================================== *)
(** * [enable]: preconditions *)
(* ================================================================== *)

Section EnablePreconditions.

Context `{Platform} (env : Env).

Lemma enable_unsupported key w :
  sw_supported w = false ->
  enable env key w = (Throw (Error "Service Worker not supported"), w).
Proof.
  intros E. unfold enable, subscribePush, bind.
  now rewrite (registerSW_unsupported env w E).
Qed.

Lemma enable_supported_trace key w :
  sw_supported w = true ->
  exists es, trace (snd (enable env key w))
             = trace w ++ EvRegister "/static/sw.js" :: es.
Proof.
  intros S. run; try discriminate; eexists; reflexivity.
Qed.

Lemma enable_not_granted key w :
  sw_supported w = true ->
  register_reply env (now w) = Resolved tt ->
  permission_reply env (S (now w)) <> granted ->
  enable env key w
  = (Throw (Error "Notifications permission not granted"),
     log EvRequestPermission
       (ensure_registration (log (EvRegister "/static/sw.js") w))).
Proof.
  intros S R P. run; try discriminate; try congruence.
Qed.

(** C8.  [enable] throws its own "Service Worker not supported" error,
    without any platform call, exactly when the platform lacks worker
    support (where [registerSW] alone returns [null]); and it throws its
    "Notifications permission not granted" error, the registration and
    the permission request being the only platform calls made (no
    subscription lookup, no subscription, no request to the server),
    exactly when the permission request is reached and is not answered
    by a grant. *)
Theorem enable_fails_fast key w :
  (enable env key w = (Throw (Error "Service Worker not supported"), w)
   <-> sw_supported w = false)
  /\ ((exists w',
          enable env key w
          = (Throw (Error "Notifications permission not granted"), w')
          /\ trace w' = trace w ++ [EvRegister "/static/sw.js"; EvRequestPermission]
          /\ active_subscription w' = active_subscription w)
      <-> (sw_supported w = true
           /\ register_reply env (now w) = Resolved tt
           /\ permission_reply env (S (now w)) <> granted))
  /\ (sw_supported w = false -> registerSW env w = (Return None, w)).
Proof.
  split; [|split].
  - split.
    + intros E. destruct (sw_supported w) eqn:S; [|reflexivity].
      destruct (enable_supported_trace key w S) as (es & T).
      rewrite E in T. simpl in T. same_trace.
    + apply enable_unsupported.
  - split.
    + intros (w' & E & T & _). revert E T. run;
        intros E T; inversion E; subst; autorewrite with world in T;
        try same_trace; repeat split; congruence.
    + intros (S & R & P). eexists. split; [now apply enable_not_granted|].
      autorewrite with world. split; reflexivity.
  - apply registerSW_unsupported.
Qed.

End EnablePreconditions.

Lemma enable_fails_fast_witness :
  @enable example_host (answering granted ok_200) "QUJD" unsupported
  = (Throw (Error "Service Worker not supported"), unsupported)
  /\ exists w',
      @enable example_host (answering denied ok_200) "QUJD" never_registered
      = (Throw (Error "Notifications permission not granted"), w')
      /\ trace w' = [EvRegister "/static/sw.js"; EvRequestPermission].
Proof.
  pose proof (@enable_fails_fast example_host (answering granted ok_200)
                "QUJD" unsupported) as (A & _ & _).
  pose proof (@enable_fails_fast example_host (answering denied ok_200)
                "QUJD" never_registered) as (_ & B & _).
  split.
  - apply A. reflexivity.
  - destruct (proj2 B) as (w' & E & T & _).
    + repeat split; simpl; congruence.
    + exists w'. split; [exact E|exact T].
Defined.

(* ================================================================== *)
(** * [enable]: reuse of the active subscription *)
(* ================================================================== *)

Section EnableIdempotent.

Context `{Platform} (env : Env).

Lemma enable_existing key w s :
  active_subscription w = Some s ->
  exists r w' es,
    enable env key w = (r, w')
    /\ trace w' = trace w ++ es
    /\ active_subscription w' = Some s
    /\ (exists rest, es ++ rest = enable_calls s)
    /\ (r = Return true -> es = enable_calls s).
Proof.
  intros A. run; try discriminate; try (injection A as ->);
    do 3 eexists; (split; [reflexivity|]); autorewrite with world;
    (split; [first [reflexivity | symmetry; apply app_nil_r]
            |split; [assumption|split]]);
    first [ eexists; reflexivity | intros E; discriminate E | reflexivity ].
Qed.

Lemma In_prefix {A} (x : A) (es rest full : list A) :
  es ++ rest = full -> In x es -> In x full.
Proof.
  intros <- Hin. apply in_or_app. now left.
Qed.

Lemma enable_calls_fetch s q :
  In (EvFetch q) (enable_calls s) -> q = post_request "/push/subscribe" s.
Proof.
  unfold enable_calls. simpl.
  intros [E|[E|[E|[E|[]]]]]; try discriminate E. now injection E as <-.
Qed.

Lemma enable_calls_subscribe s uv k : ~ In (EvSubscribe uv k) (enable_calls s).
Proof.
  unfold enable_calls. simpl.
  intros [E|[E|[E|[E|[]]]]]; discriminate E.
Qed.

(** C1.  From a state in which a subscription [s] is active, two calls
    of [enable] in a row never call [subscribe]: [s] stays the active
    subscription, every request either call sends is the POST of [s] to
    [/push/subscribe], so the body the second call posts is the body
    the first call posted, and a call that resolves has sent it. *)
Theorem enable_twice_reuses_subscription key1 key2 w s :
  active_subscription w = Some s ->
  exists r1 w1 es1 r2 w2 es2,
    enable env key1 w = (r1, w1)
    /\ enable env key2 w1 = (r2, w2)
    /\ trace w1 = trace w ++ es1
    /\ trace w2 = trace w1 ++ es2
    /\ (forall uv k, ~ In (EvSubscribe uv k) (es1 ++ es2))
    /\ active_subscription w1 = Some s
    /\ active_subscription w2 = Some s
    /\ (forall q, In (EvFetch q) (es1 ++ es2) ->
                  q = post_request "/push/subscribe" s)
    /\ (forall q1 q2, In (EvFetch q1) es1 -> In (EvFetch q2) es2 ->
                      req_body q2 = req_body q1
                      /\ req_body q1 = JSON_stringify s)
    /\ (r1 = Return true -> In (EvFetch (post_request "/push/subscribe" s)) es1)
    /\ (r2 = Return true -> In (EvFetch (post_request "/push/subscribe" s)) es2).
Proof.
  intros A.
  destruct (enable_existing key1 w s A) as (r1 & w1 & es1 & E1 & T1 & A1 & [p1 P1] & F1).
  destruct (enable_existing key2 w1 s A1) as (r2 & w2 & es2 & E2 & T2 & A2 & [p2 P2] & F2).
  exists r1, w1, es1, r2, w2, es2.
  assert (Q : forall q es rest, es ++ rest = enable_calls s ->
                In (EvFetch q) es -> q = post_request "/push/subscribe" s).
  { intros q es rest P Hin. apply enable_calls_fetch.
    exact (In_prefix _ _ _ _ P Hin). }
  split; [exact E1|]. split; [exact E2|].
  split; [exact T1|]. split; [exact T2|].
  split.
  { intros uv k Hin. apply (enable_calls_subscribe s uv k).
    apply in_app_or in Hin as [Hin|Hin].
    - exact (In_prefix _ _ _ _ P1 Hin).
    - exact (In_prefix _ _ _ _ P2 Hin). }
  split; [exact A1|]. split; [exact A2|].
  split.
  { intros q Hin. apply in_app_or in Hin as [Hin|Hin].
    - exact (Q _ _ _ P1 Hin).
    - exact (Q _ _ _ P2 Hin). }
  split.
  { intros q1 q2 Hin1 Hin2.
    rewrite (Q _ _ _ P1 Hin1), (Q _ _ _ P2 Hin2). split; reflexivity. }
  split.
  - intros R. rewrite (F1 R). unfold enable_calls. simpl. tauto.
  - intros R. rewrite (F2 R). unfold enable_calls. simpl. tauto.
Qed.

(** An [enable] that resolves leaves a subscription active, the one it
    posted; a second [enable] then reuses it. *)
Lemma enable_resolved_active key w :
  fst (enable env key w) = Return true ->
  exists s,
    active_subscription (snd (enable env key w)) = Some s
    /\ In (EvFetch (post_request "/push/subscribe" s))
          (trace (snd (enable env key w))).
Proof.
  run; intros E; try discriminate E; try congruence; tidy;
    eexists; (split; [first [reflexivity | eassumption]|]);
    apply in_or_app; right; simpl; tauto.
Qed.

End EnableIdempotent.

Lemma enable_twice_reuses_subscription_witness :
  active_subscription subscribed = Some sub1
  /\ exists w1 w2,
      @enable example_host (answering granted ok_200) "QUJD" subscribed
      = (Return true, w1)
      /\ @enable example_host (answering granted ok_200) "-_8" w1
         = (Return true, w2)
      /\ trace w2 = @enable_calls example_host sub1 ++ @enable_calls example_host sub1.
Proof.
  split; [reflexivity|].
  destruct (@enable_twice_reuses_subscription example_host
              (answering granted ok_200) "QUJD" "-_8" subscribed sub1 eq_refl)
    as (r1 & w1 & es1 & r2 & w2 & es2 & E1 & E2 & T1 & T2 & _).
  exists w1, w2.
  vm_compute in E1. injection E1 as <- <-.
  vm_compute in E2. injection E2 as <- <-.
  repeat split; reflexivity.
Defined.

(* ================================================================== *)
(** * [disable] *)
(* ================================================================== *)

Lemma registration_log e w : registration (log e w) = registration w.
Proof. reflexivity. Qed.

Lemma registration_kept w s e e1 e2 :
  active_subscription w = Some s ->
  registration (log e2 (log e1 (ensure_registration (log e w))))
  = registration w.
Proof.
  unfold active_subscription, ensure_registration.
  rewrite !registration_log.
  destruct (registration w) eqn:E; [|discriminate].
  intros _. now rewrite registration_log.
Qed.

Section Disable.

Context `{Platform} (env : Env).

Lemma disable_unsupported w :
  sw_supported w = false -> disable env w = (Return true, w).
Proof.
  intros E. unfold disable, bind.
  now rewrite (registerSW_unsupported env w E).
Qed.

Lemma disable_no_subscription w :
  sw_supported w = true ->
  register_reply env (now w) = Resolved tt ->
  getSubscription_reply env (S (now w)) = Resolved tt ->
  active_subscription w = None ->
  disable env w
  = (Return true,
     log EvGetSubscription
       (ensure_registration (log (EvRegister "/static/sw.js") w))).
Proof.
  intros S R G A. run; congruence.
Qed.

Lemma disable_server_rejects w s res :
  active_subscription w = Some s ->
  sw_supported w = true ->
  register_reply env (now w) = Resolved tt ->
  getSubscription_reply env (S (now w)) = Resolved tt ->
  fetch_reply env (S (S (now w))) = Resolved res ->
  ok res = false ->
  exists w',
    disable env w = (Throw (Error (rejection_message res)), w')
    /\ trace w' = trace w ++ disable_calls s
    /\ registration w' = registration w.
Proof.
  intros A S R G F O.
  run; try congruence.
  tidy. eexists. split; [reflexivity|].
  autorewrite with world. split; [reflexivity|].
  eapply registration_kept; eassumption.
Qed.

Lemma disable_fetch_rejected w s e :
  active_subscription w = Some s ->
  sw_supported w = true ->
  register_reply env (now w) = Resolved tt ->
  getSubscription_reply env (S (now w)) = Resolved tt ->
  fetch_reply env (S (S (now w))) = Rejected e ->
  exists w',
    disable env w = (Throw e, w')
    /\ trace w' = trace w ++ disable_calls s
    /\ registration w' = registration w.
Proof.
  intros A S R G F.
  run; try congruence.
  tidy. eexists. split; [reflexivity|].
  autorewrite with world. split; [reflexivity|].
  eapply registration_kept; eassumption.
Qed.

Lemma disable_server_accepts w s res :
  active_subscription w = Some s ->
  sw_supported w = true ->
  register_reply env (now w) = Resolved tt ->
  getSubscription_reply env (S (now w)) = Resolved tt ->
  fetch_reply env (S (S (now w))) = Resolved res ->
  ok res = true ->
  exists w',
    disable env w
    = (match unsubscribe_reply env (S (S (S (now w)))) with
       | Resolved _ => Return true
       | Rejected e => Throw e
       end, w')
    /\ trace w' = trace w ++ disable_calls s ++ [EvUnsubscribe s]
    /\ active_subscription w'
       = match unsubscribe_reply env (S (S (S (now w)))) with
         | Resolved true => None
         | _ => Some s
         end.
Proof.
  intros A S R G F O.
  run; try congruence;
    tidy; eexists; (split; [reflexivity|]);
    autorewrite with world; split;
    first [reflexivity | assumption | symmetry; assumption].
Qed.

(** Whatever the platform and the server answer, [disable] calls
    [unsubscribe] only as its last call, on the active subscription,
    right after the server accepted the POST of that subscription. *)
Lemma disable_unsubscribe_after_ack w r w' es s' :
  disable env w = (r, w') ->
  trace w' = trace w ++ es ->
  In (EvUnsubscribe s') es ->
  active_subscription w = Some s'
  /\ es = disable_calls s' ++ [EvUnsubscribe s']
  /\ exists res, fetch_reply env (S (S (now w))) = Resolved res /\ ok res = true.
Proof.
  run; intros E T Hin; injection E as <- <-; autorewrite with world in T.
  all: new_calls; subst es; simpl in Hin.
  all: repeat (destruct Hin as [Hin|Hin]; [try discriminate Hin|]).
  all: try contradiction.
  all: injection Hin as <-.
  all: split; [reflexivity|split; [reflexivity|]].
  all: eexists; split; [reflexivity|assumption].
Qed.

(** [disable] changes the active subscription only by revoking it after
    the server accepted the POST. *)
Lemma disable_revokes_after_ack w :
  active_subscription (snd (disable env w)) <> active_subscription w ->
  exists s res,
    active_subscription w = Some s
    /\ active_subscription (snd (disable env w)) = None
    /\ fetch_reply env (S (S (now w))) = Resolved res
    /\ ok res = true
    /\ trace (snd (disable env w)) = trace w ++ disable_calls s ++ [EvUnsubscribe s].
Proof.
  run; intros N; try congruence.
  do 2 eexists. split; [reflexivity|].
  split; [reflexivity|]. split; [reflexivity|]. split; [assumption|].
  reflexivity.
Qed.

(** C2.  With a subscription [s] active (and the worker and the lookup
    answering), [disable] first POSTs [s] to [/push/unsubscribe] and
    calls the platform's [unsubscribe] only when the server answered
    with a 2xx status.  When the server answers otherwise, or the
    request fails, [disable] throws that error, [unsubscribe] is not
    called and the registration with its subscription is as before.
    Hence whenever [unsubscribe] was called, or the active subscription
    changed, the server had accepted the POST just before. *)
Theorem disable_server_ack_before_revocation :
  (forall w s,
      active_subscription w = Some s ->
      sw_supported w = true ->
      register_reply env (now w) = Resolved tt ->
      getSubscription_reply env (S (now w)) = Resolved tt ->
      exists r w' es,
        disable env w = (r, w')
        /\ trace w' = trace w ++ disable_calls s ++ es
        /\ match fetch_reply env (S (S (now w))) with
           | Resolved res =>
               if ok res
               then es = [EvUnsubscribe s]
               else es = []
                    /\ r = Throw (Error (rejection_message res))
                    /\ registration w' = registration w
           | Rejected e =>
               es = [] /\ r = Throw e /\ registration w' = registration w
           end)
  /\ (forall w r w' es s',
         disable env w = (r, w') ->
         trace w' = trace w ++ es ->
         In (EvUnsubscribe s') es ->
         active_subscription w = Some s'
         /\ es = disable_calls s' ++ [EvUnsubscribe s']
         /\ exists res,
             fetch_reply env (S (S (now w))) = Resolved res /\ ok res = true)
  /\ (forall w r w',
         disable env w = (r, w') ->
         active_subscription w' <> active_subscription w ->
         exists s res,
           active_subscription w = Some s
           /\ active_subscription w' = None
           /\ fetch_reply env (S (S (now w))) = Resolved res
           /\ ok res = true
           /\ trace w' = trace w ++ disable_calls s ++ [EvUnsubscribe s]).
Proof.
  split; [|split].
  - intros w s A S R G.
    destruct (fetch_reply env (Datatypes.S (Datatypes.S (now w))))
      as [res|e] eqn:F; [destruct (ok res) eqn:O|].
    + destruct (disable_server_accepts w s res A S R G F O) as (w' & E & T & _).
      eexists _, w', _. split; [exact E|]. split; [exact T|reflexivity].
    + destruct (disable_server_rejects w s res A S R G F O) as (w' & E & T & K).
      eexists _, w', []. split; [exact E|]. rewrite app_nil_r.
      split; [exact T|]. repeat split. exact K.
    + destruct (disable_fetch_rejected w s e A S R G F) as (w' & E & T & K).
      eexists _, w', []. split; [exact E|]. rewrite app_nil_r.
      split; [exact T|]. repeat split. exact K.
  - exact disable_unsubscribe_after_ack.
  - intros w r w' E N.
    pose proof (disable_revokes_after_ack w) as K.
    rewrite E in K. exact (K N).
Qed.

(** C7, as the code has it.  [disable] resolves [true] without any
    platform call or request, and changes nothing, when the platform
    lacks worker support.  When the platform has worker support and the
    worker was never registered, [disable] registers it and looks the
    subscription up; when both calls resolve it resolves [true] and no
    request is sent to the server, the worker now being registered. *)
Theorem disable_without_worker :
  (forall w, sw_supported w = false -> disable env w = (Return true, w))
  /\ (forall w,
         registration w = None ->
         sw_supported w = true ->
         register_reply env (now w) = Resolved tt ->
         getSubscription_reply env (S (now w)) = Resolved tt ->
         disable env w
         = (Return true,
            {| sw_supported := true;
               registration := Some {| pushSubscription := None |};
               trace := trace w ++ [EvRegister "/static/sw.js"; EvGetSubscription] |})).
Proof.
  split.
  - exact disable_unsupported.
  - intros w N S R G.
    assert (A : active_subscription w = None)
      by (unfold active_subscription; now rewrite N).
    rewrite (disable_no_subscription w S R G A). f_equal.
    unfold ensure_registration, log, set_registration. simpl.
    rewrite N, S. simpl. now rewrite <- app_assoc.
Qed.

End Disable.

Lemma disable_server_ack_before_revocation_witness :
  exists w',
    @disable example_host (answering granted bad_request_400) subscribed
    = (Throw (Error "invalid subscription"), w')
    /\ trace w' = @disable_calls example_host sub1
    /\ registration w' = registration subscribed.
Proof.
  destruct (proj1 (@disable_server_ack_before_revocation example_host
                     (answering granted bad_request_400))
              subscribed sub1 eq_refl eq_refl eq_refl eq_refl)
    as (r & w' & es & E & T & K).
  simpl in K. destruct K as (-> & -> & K).
  exists w'. split; [exact E|]. split; [|exact K].
  rewrite T. reflexivity.
Defined.

Lemma disable_without_worker_witness :
  @disable example_host (answering granted ok_200) unsupported
  = (Return true, unsupported)
  /\ @disable example_host (answering granted ok_200) never_registered
     = (Return true,
        {| sw_supported := true;
           registration := Some {| pushSubscription := None |};
           trace := [EvRegister "/static/sw.js"; EvGetSubscription] |}).
Proof.
  split.
  - apply (proj1 (@disable_without_worker example_host (answering granted ok_200))).
    reflexivity.
  - apply (proj2 (@disable_without_worker example_host (answering granted ok_200))
             never_registered); reflexivity.
Defined.

(** C7, as stated, fails: in a browser with worker support where the
    worker was never registered, [disable] registers the worker (a
    platform call that fetches the worker script) and leaves it
    registered; and when that registration is refused, [disable] throws
    instead of resolving [true]. *)
Lemma disable_never_registered_registers :
  registration never_registered = None
  /\ (exists w',
         @disable example_host (answering granted ok_200) never_registered
         = (Return true, w')
         /\ trace w' = [EvRegister "/static/sw.js"; EvGetSubscription]
         /\ registration w' = Some {| pushSubscription := None |}
         /\ w' <> never_registered)
  /\ @disable example_host refusing_registration never_registered
     = (Throw (DOMException "SecurityError"),
        log (EvRegister "/static/sw.js") never_registered).
Proof.
  split; [reflexivity|]. split; [|reflexivity].
  eexists. split; [reflexivity|].
  split; [reflexivity|]. split; [reflexivity|]. discriminate.
Qed.

(* ================================================================== *)
(** * [postJSON]: the status of the response decides *)
(* ================================================================== *)

Section PostJSON.

Context `{Platform} (env : Env).

Lemma postJSON_response url data w res :
  fetch_reply env (now w) = Resolved res ->
  postJSON env url data w
  = (if ok res
     then Return match JSON_parse (text res) with
                 | Some v => v
                 | None => JObj []
                 end
     else Throw (Error (rejection_message res)),
     log (EvFetch (post_request url data)) w).
Proof.
  intros F. unfold postJSON, bind, fetch. rewrite F.
  unfold post_request, rejection_message. now destruct (ok res).
Qed.

Lemma ok_2xx res : ok res = true <-> (200 <= status res <= 299)%N.
Proof.
  unfold ok. rewrite andb_true_iff, !N.leb_le. tauto.
Qed.

Lemma rejection_message_text res :
  (text res <> "" -> rejection_message res = text res)
  /\ (text res = "" -> rejection_message res = "Request failed").
Proof.
  unfold rejection_message.
  destruct (String.eqb_spec (text res) ""); split; congruence.
Qed.

Lemma enable_response key w sub w1 res :
  subscribePush env key w = (Return sub, w1) ->
  fetch_reply env (now w1) = Resolved res ->
  enable env key w
  = (if ok res then Return true else Throw (Error (rejection_message res)),
     log (EvFetch (post_request "/push/subscribe" sub)) w1).
Proof.
  intros E F. unfold enable, bind. rewrite E.
  rewrite (postJSON_response _ _ _ _ F). now destruct (ok res).
Qed.

Lemma subscribePush_existing key w s :
  active_subscription w = Some s ->
  sw_supported w = true ->
  register_reply env (now w) = Resolved tt ->
  permission_reply env (S (now w)) = granted ->
  getSubscription_reply env (S (S (now w))) = Resolved tt ->
  subscribePush env key w
  = (Return s,
     log EvGetSubscription
       (log EvRequestPermission
          (ensure_registration (log (EvRegister "/static/sw.js") w)))).
Proof.
  intros A S R P G. run; congruence.
Qed.

(** C4.  When the server answers the POST, a status in 200-299 makes
    [postJSON] return, and any other status makes it throw an [Error]
    whose message is the body text of the response, or "Request failed"
    when that text is empty.  [enable] and [disable] let that error
    through unchanged, and resolve [true] on a 2xx answer ([disable]
    once [unsubscribe] has resolved). *)
Theorem response_status_decides :
  (forall url data w res,
      fetch_reply env (now w) = Resolved res ->
      (ok res = true <-> (200 <= status res <= 299)%N)
      /\ (ok res = true ->
          exists v, postJSON env url data w
                    = (Return v, log (EvFetch (post_request url data)) w))
      /\ (ok res = false ->
          postJSON env url data w
          = (Throw (Error (rejection_message res)),
             log (EvFetch (post_request url data)) w))
      /\ (text res <> "" -> rejection_message res = text res)
      /\ (text res = "" -> rejection_message res = "Request failed"))
  /\ (forall key w sub w1 res,
         subscribePush env key w = (Return sub, w1) ->
         fetch_reply env (now w1) = Resolved res ->
         fst (enable env key w)
         = if ok res then Return true
           else Throw (Error (rejection_message res)))
  /\ (forall w s res,
         active_subscription w = Some s ->
         sw_supported w = true ->
         register_reply env (now w) = Resolved tt ->
         getSubscription_reply env (S (now w)) = Resolved tt ->
         fetch_reply env (S (S (now w))) = Resolved res ->
         fst (disable env w)
         = if ok res
           then match unsubscribe_reply env (S (S (S (now w)))) with
                | Resolved _ => Return true
                | Rejected e => Throw e
                end
           else Throw (Error (rejection_message res))).
Proof.
  split; [|split].
  - intros url data w res F.
    split; [apply ok_2xx|].
    split; [|split; [|apply rejection_message_text]].
    + intros O. rewrite (postJSON_response _ _ _ _ F), O. eauto.
    + intros O. now rewrite (postJSON_response _ _ _ _ F), O.
  - intros key w sub w1 res E F.
    now rewrite (enable_response _ _ _ _ _ E F).
  - intros w s res A S R G F.
    destruct (ok res) eqn:O.
    + destruct (disable_server_accepts env w s res A S R G F O) as (w' & E & _).
      now rewrite E.
    + destruct (disable_server_rejects env w s res A S R G F O) as (w' & E & _).
      now rewrite E.
Qed.

End PostJSON.

Lemma response_status_decides_witness :
  fst (@enable example_host (answering granted bad_request_400) "QUJD" subscribed)
  = Throw (Error "invalid subscription")
  /\ fst (@enable example_host (answering granted empty_500) "QUJD" subscribed)
     = Throw (Error "Request failed")
  /\ fst (@enable example_host (answering granted ok_200) "QUJD" never_registered)
     = Return true
  /\ fst (@disable example_host (answering granted bad_request_400) subscribed)
     = Throw (Error "invalid subscription").
Proof.
  pose proof (@response_status_decides example_host) as T.
  split; [|split; [|split]].
  - apply (proj1 (proj2 (T (answering granted bad_request_400)))
             "QUJD" subscribed sub1 _ bad_request_400 eq_refl eq_refl).
  - apply (proj1 (proj2 (T (answering granted empty_500)))
             "QUJD" subscribed sub1 _ empty_500 eq_refl eq_refl).
  - apply (proj1 (proj2 (T (answering granted ok_200)))
             "QUJD" never_registered sub2 _ ok_200 eq_refl eq_refl).
  - apply (proj2 (proj2 (T (answering granted bad_request_400)))
             subscribed sub1 bad_request_400); reflexivity.
Defined.

(* ================================================================== *)
(** * The service worker: the [push] listener *)
(* ================================================================== *)

Lemma truthy_JStr s : js_or (JStr s) (JStr "") = JStr s.
Proof.
  unfold js_or. simpl. destruct (String.eqb_spec s ""); simpl; congruence.
Qed.

Lemma truthy_not_empty v : truthy v = true -> v <> JStr "".
Proof.
  intros T ->. discriminate T.
Qed.

Section PushListener.

Context `{Platform}.

(** With no data at all the notification has the default title and an
    empty body. *)
Lemma onPush_no_data :
  onPush {| event_data := None |}
  = ([ShowNotification (JStr "M&N Driver Portal")
        (default_options (JStr "") (JObj []))], Return tt).
Proof. reflexivity. Qed.

(** With data that is not JSON the notification has the default title
    and the raw text as its body. *)
Lemma onPush_not_json t :
  JSON_parse t = None ->
  onPush {| event_data := Some t |}
  = ([ShowNotification (JStr "M&N Driver Portal")
        (default_options (JStr t) (JObj []))], Return tt).
Proof.
  intros P. unfold onPush, push_payload, event_data_json. simpl. rewrite P.
  unfold notify, default_options. simpl. now rewrite truthy_JStr.
Qed.

(** A payload that parses to anything but [null] gets a notification. *)
Lemma onPush_not_null t v :
  JSON_parse t = Some v -> v <> JNull -> v <> JUndefined ->
  exists title options,
    onPush {| event_data := Some t |}
    = ([ShowNotification title options], Return tt).
Proof.
  intros P N U. unfold onPush, push_payload, event_data_json. simpl. rewrite P.
  unfold notify.
  destruct v; try congruence; simpl; try (do 2 eexists; reflexivity).
  destruct (assoc "title" properties), (assoc "body" properties),
    (assoc "data" properties); do 2 eexists; reflexivity.
Qed.

(** C3, where the code departs from it.  A payload whose text is the
    JSON literal [null] parses, so that the [catch] is not entered and
    [data] is [null]: reading [data.title] throws a [TypeError], and no
    notification is shown. *)
Theorem onPush_null_payload_throws t :
  JSON_parse t = Some JNull ->
  onPush {| event_data := Some t |} = ([], Throw TypeError).
Proof.
  intros P. unfold onPush, push_payload, event_data_json. simpl.
  now rewrite P.
Qed.

(** C10, as the code has it.  For a payload that parses to an object,
    a falsy [title], [body] or [data] is replaced by the default title,
    the empty string or the empty object, and a truthy one is passed on
    as it is.  So the title is never falsy (never the empty string); the
    body is a string when the payload's [body] is a string or falsy, and
    the data is an object when the payload's [data] is an object or
    falsy. *)
Theorem onPush_defaults t props :
  JSON_parse t = Some (JObj props) ->
  exists title options,
    onPush {| event_data := Some t |}
    = ([ShowNotification title options], Return tt)
    /\ title = js_or (field "title" props) (JStr "M&N Driver Portal")
    /\ opt_body options = js_or (field "body" props) (JStr "")
    /\ opt_data options = js_or (field "data" props) (JObj [])
    /\ (truthy (field "title" props) = false -> title = JStr "M&N Driver Portal")
    /\ (truthy (field "body" props) = false -> opt_body options = JStr "")
    /\ (truthy (field "data" props) = false -> opt_data options = JObj [])
    /\ (truthy (field "title" props) = true -> title = field "title" props)
    /\ (truthy (field "body" props) = true -> opt_body options = field "body" props)
    /\ (truthy (field "data" props) = true -> opt_data options = field "data" props)
    /\ truthy title = true
    /\ title <> JStr ""
    /\ (is_string (field "body" props) = true \/ truthy (field "body" props) = false ->
        is_string (opt_body options) = true)
    /\ (is_object (field "data" props) = true \/ truthy (field "data" props) = false ->
        is_object (opt_data options) = true).
Proof.
  intros P.
  exists (js_or (field "title" props) (JStr "M&N Driver Portal")),
         (default_options (js_or (field "body" props) (JStr ""))
                          (js_or (field "data" props) (JObj []))).
  split.
  { unfold onPush, push_payload, event_data_json. simpl. rewrite P.
    unfold notify, get, field, default_options.
    destruct (assoc "title" props), (assoc "body" props),
      (assoc "data" props); reflexivity. }
  simpl. unfold js_or.
  repeat split; try (intros E; now rewrite E).
  - now destruct (truthy (field "title" props)) eqn:E.
  - apply truthy_not_empty. now destruct (truthy (field "title" props)) eqn:E.
  - intros [S|F]; [|now rewrite F].
    destruct (truthy (field "body" props)); [exact S|reflexivity].
  - intros [O|F]; [|now rewrite F].
    destruct (truthy (field "data" props)); [exact O|reflexivity].
Qed.

End PushListener.

Lemma onPush_null_payload_throws_witness :
  @onPush example_host {| event_data := Some "null" |} = ([], Throw TypeError).
Proof.
  apply (@onPush_null_payload_throws example_host "null"). reflexivity.
Defined.

Lemma onPush_defaults_witness :
  exists title options,
    @onPush example_host {| event_data := Some payload_full |}
    = ([ShowNotification title options], Return tt)
    /\ title = JStr "T"
    /\ opt_body options = JStr "B"
    /\ opt_data options = JObj [("url", JStr "/x")].
Proof.
  destruct (@onPush_defaults example_host payload_full _ eq_refl)
    as (title & options & E & Et & Eb & Ed & _).
  exists title, options.
  split; [exact E|]. split; [exact Et|]. split; [exact Eb|exact Ed].
Defined.

(** C10, as stated, fails: with the payload [{"data":"x"}] the
    notification's data is the string ["x"], not an object; with
    [{"body":true}] its body is [true], not a string; and with
    [{"title":[]}] its title is the empty array, which is truthy and
    which the platform prints as the empty string. *)
Lemma onPush_truthy_fields_pass :
  @onPush example_host {| event_data := Some payload_data_x |}
  = ([ShowNotification (JStr "M&N Driver Portal")
        (default_options (JStr "") (JStr "x"))], Return tt)
  /\ is_object (JStr "x") = false
  /\ @onPush example_host {| event_data := Some payload_body_true |}
     = ([ShowNotification (JStr "M&N Driver Portal")
           (default_options (JBool true) (JObj []))], Return tt)
  /\ is_string (JBool true) = false
  /\ @onPush example_host {| event_data := Some payload_title_array |}
     = ([ShowNotification (JArr [])
           (default_options (JStr "") (JObj []))], Return tt)
  /\ @ToString example_host (JArr []) = Return "".
Proof.
  repeat split.
Qed.

(* ================================================================== *)
(** * The service worker: the [notificationclick] listener *)
(* ================================================================== *)

Lemma find_first {A} (f : A -> bool) pre c post :
  f c = true -> (forall x, In x pre -> f x = false) ->
  find f (pre ++ c :: post) = Some c.
Proof.
  intros Hc Hpre. induction pre as [|x pre IH]; simpl.
  - now rewrite Hc.
  - rewrite (Hpre x (or_introl eq_refl)). apply IH.
    intros y Hy. apply Hpre. now right.
Qed.

Lemma find_nowhere {A} (f : A -> bool) l :
  (forall x, In x l -> f x = false) -> find f l = None.
Proof.
  intros Hl. induction l as [|x l IH]; simpl; [reflexivity|].
  rewrite (Hl x (or_introl eq_refl)). apply IH.
  intros y Hy. apply Hl. now right.
Qed.

Section ClickListener.

Context `{Platform}.

(** With a target that converts to a string, the loop over
    [matchAll({type: "window", includeUncontrolled: true})] finds the
    first open window client whose URL contains it. *)
Lemma client_to_focus_find url searchString self :
  ToString url = Return searchString ->
  client_to_focus url (clients_matchAll window true self)
  = Return (find (matches searchString) (clients self)).
Proof.
  intros T. unfold clients_matchAll.
  induction (clients self) as [|c cs IH]; simpl.
  - reflexivity.
  - unfold matches at 1.
    destruct (ClientType_eqb (client_type c) window) eqn:W; simpl.
    + rewrite T. unfold has_focus. rewrite W, andb_true_r.
      destruct (JsString.includes (client_url c) searchString);
        [reflexivity|exact IH].
    + exact IH.
Qed.

(** With a target that does not convert, the first turn of the loop
    throws. *)
Lemma client_to_focus_throws url e clientList :
  ToString url = Throw e ->
  client_to_focus url clientList
  = match clientList with
    | [] => Return None
    | _ :: _ => Throw e
    end.
Proof.
  intros T. destruct clientList as [|c l]; simpl; [reflexivity|].
  now rewrite T.
Qed.

Lemma matchAll_window_clients self :
  match clients_matchAll window true self with
  | [] => has_window_client self = false
  | _ :: _ => has_window_client self = true
  end.
Proof.
  unfold clients_matchAll, has_window_client.
  induction (clients self) as [|c cs IH]; simpl; [reflexivity|].
  destruct (ClientType_eqb (client_type c) window); simpl; [reflexivity|].
  exact IH.
Qed.

Lemma click_url_target data :
  exists v, click_url data = Return v /\ ToString v = click_target data.
Proof.
  unfold click_url, click_target.
  destruct data as [| |b|x|s|l|props].
  7: { simpl. unfold field. destruct (assoc "url" props) as [u|]; simpl.
       - destruct (truthy u); eexists; split; reflexivity.
       - eexists; split; reflexivity. }
  all: repeat (match goal with
               | |- context [if ?c then _ else _] => destruct c eqn:?
               end; simpl in * );
       try congruence; eexists; split; reflexivity.
Qed.

(** The listener when the target converts to a string. *)
Lemma onNotificationClick_target event self url :
  click_target (notification_data event) = Return url ->
  onNotificationClick event self
  = ([CloseNotification; MatchAll window true] ++
     match find (matches url) (clients self) with
     | Some client => [Focus client]
     | None => if clients_openWindow self then [OpenWindow url] else []
     end, Return tt).
Proof.
  intros T. unfold onNotificationClick.
  destruct (click_url_target (notification_data event)) as (v & -> & E).
  rewrite T in E. rewrite (client_to_focus_find _ _ _ E).
  destruct (find (matches url) (clients self)); [reflexivity|].
  destruct (clients_openWindow self); [|reflexivity]. now rewrite E.
Qed.

(** The listener when the target does not convert to a string. *)
Lemma onNotificationClick_no_target event self e :
  click_target (notification_data event) = Throw e ->
  onNotificationClick event self
  = ([CloseNotification; MatchAll window true],
     if has_window_client self || clients_openWindow self
     then Throw e else Return tt).
Proof.
  intros T. unfold onNotificationClick.
  destruct (click_url_target (notification_data event)) as (v & -> & E).
  rewrite T in E. rewrite (client_to_focus_throws _ _ _ E).
  pose proof (matchAll_window_clients self) as W.
  destruct (clients_matchAll window true self); rewrite W; simpl.
  - destruct (clients_openWindow self); [|reflexivity]. now rewrite E.
  - reflexivity.
Qed.

(** C5, as the code has it.  The notification is closed first.  The
    target is [data.url] when [data] is an object whose [url] is truthy
    (a non-empty string is its own target, another truthy value is
    converted to a string), and ["/portal"] when [data.url] is absent
    or falsy.  Whenever the target is a string or converts to one:
    among all open clients, controlled or not, the first window client
    whose URL contains the target is focused and no window is opened;
    when there is none, a window is opened at the target if
    [clients.openWindow] is defined, and nothing more is done if it is
    not. *)
Theorem notificationclick_routing event self :
  let data := notification_data event in
  (exists rest, fst (onNotificationClick event self) = CloseNotification :: rest)
  /\ (forall props s,
         data = JObj props -> field "url" props = JStr s -> s <> "" ->
         click_target data = Return s)
  /\ (forall props,
         data = JObj props -> truthy (field "url" props) = true ->
         click_target data = ToString (field "url" props))
  /\ (forall props,
         data = JObj props -> truthy (field "url" props) = false ->
         click_target data = Return "/portal")
  /\ ((forall props, data <> JObj props) -> click_target data = Return "/portal")
  /\ (forall url pre client post,
         click_target data = Return url ->
         clients self = pre ++ client :: post ->
         matches url client = true ->
         (forall c, In c pre -> matches url c = false) ->
         onNotificationClick event self
         = ([CloseNotification; MatchAll window true; Focus client], Return tt))
  /\ (forall url,
         click_target data = Return url ->
         (forall c, In c (clients self) -> matches url c = false) ->
         onNotificationClick event self
         = ([CloseNotification; MatchAll window true]
            ++ (if clients_openWindow self then [OpenWindow url] else []),
            Return tt)).
Proof.
  intros data. subst data.
  split; [|split; [|split; [|split; [|split; [|split]]]]].
  - destruct (click_target (notification_data event)) as [url|e] eqn:T.
    + rewrite (onNotificationClick_target _ _ _ T). simpl. eauto.
    + rewrite (onNotificationClick_no_target _ _ _ T). simpl. eauto.
  - intros props s -> E Hs. simpl. rewrite E. simpl.
    destruct (String.eqb_spec s ""); [contradiction|reflexivity].
  - intros props -> E. simpl. now rewrite E.
  - intros props -> F. simpl. now rewrite F.
  - intros N. destruct (notification_data event); try reflexivity.
    now elim (N properties).
  - intros url pre client post T C M P.
    rewrite (onNotificationClick_target _ _ _ T), C, (find_first _ _ _ _ M P).
    reflexivity.
  - intros url T N.
    rewrite (onNotificationClick_target _ _ _ T), (find_nowhere _ _ N).
    reflexivity.
Qed.

End ClickListener.

Lemma notificationclick_routing_witness :
  @onNotificationClick example_host
    {| notification_data := JObj [("url", JStr "/portal")] |}
    {| clients := [other_tab; portal_tab]; clients_openWindow := true |}
  = ([CloseNotification; MatchAll window true; Focus portal_tab], Return tt)
  /\ @onNotificationClick example_host
       {| notification_data := JObj [("url", JStr "/portal")] |}
       {| clients := [other_tab]; clients_openWindow := true |}
     = ([CloseNotification; MatchAll window true; OpenWindow "/portal"], Return tt).
Proof.
  split.
  - apply (proj1 (proj2 (proj2 (proj2 (proj2 (proj2
             (@notificationclick_routing example_host
                {| notification_data := JObj [("url", JStr "/portal")] |}
                {| clients := [other_tab; portal_tab];
                   clients_openWindow := true |}))))))
             "/portal" [other_tab] portal_tab []).
    + reflexivity.
    + reflexivity.
    + reflexivity.
    + intros c [<-|[]]. reflexivity.
  - apply (proj2 (proj2 (proj2 (proj2 (proj2 (proj2
             (@notificationclick_routing example_host
                {| notification_data := JObj [("url", JStr "/portal")] |}
                {| clients := [other_tab]; clients_openWindow := true |}))))))
             "/portal").
    + reflexivity.
    + intros c [<-|[]]. reflexivity.
Defined.

(** C5, as stated, fails where [data.url] is present and falsy: with
    [data.url] the empty string, which every URL contains, the open
    client is not focused and a window is opened at ["/portal"]. *)
Lemma notificationclick_empty_url :
  get (JObj [("url", JStr "")]) "url" = Return (JStr "")
  /\ JsString.includes (client_url other_tab) "" = true
  /\ @onNotificationClick example_host
       {| notification_data := JObj [("url", JStr "")] |}
       {| clients := [other_tab]; clients_openWindow := true |}
     = ([CloseNotification; MatchAll window true; OpenWindow "/portal"], Return tt).
Proof.
  repeat split.
Qed.

(* ================================================================== *)
(** * More on [urlBase64ToUint8Array]: inputs over the alphabets *)
(* ================================================================== *)

Lemma sextet_plain c v :
  Base64.sextet c = Some v ->
  Base64.is_ascii_whitespace c = false /\ c <> "="%char /\ (v < 64)%N.
Proof.
  destruct c as [[] [] [] [] [] [] [] []]; vm_compute; intros E;
    try discriminate E; injection E as <-;
    (split; [reflexivity|split; [discriminate|reflexivity]]).
Qed.

Lemma sextets_length l vs :
  Base64.sextets l = Some vs -> List.length vs = List.length l.
Proof.
  revert vs. induction l as [|c l IH]; simpl; intros vs E.
  - now injection E as <-.
  - destruct (Base64.sextet c); [|discriminate].
    destruct (Base64.sextets l); [|discriminate].
    injection E as <-. simpl. now rewrite (IH _ eq_refl).
Qed.

Lemma sextets_no_whitespace l vs :
  Base64.sextets l = Some vs ->
  filter (fun c => negb (Base64.is_ascii_whitespace c)) l = l.
Proof.
  revert vs. induction l as [|c l IH]; simpl; intros vs E; [reflexivity|].
  destruct (Base64.sextet c) eqn:S; [|discriminate].
  destruct (Base64.sextets l) eqn:R; [|discriminate].
  destruct (sextet_plain _ _ S) as (-> & _). simpl. now rewrite (IH _ eq_refl).
Qed.

Lemma sextets_last_plain l c vs :
  Base64.sextets (l ++ [c]) = Some vs -> c <> "="%char.
Proof.
  revert vs. induction l as [|x l IH]; simpl; intros vs E.
  - destruct (Base64.sextet c) eqn:S; [|discriminate].
    now destruct (sextet_plain _ _ S) as (_ & N & _).
  - destruct (Base64.sextet x); [|discriminate].
    destruct (Base64.sextets (l ++ [c])) eqn:R; [|discriminate].
    exact (IH _ eq_refl).
Qed.

(** The padding that the code appended is what [atob] removes. *)
Lemma strip_padding_appended l vs j :
  Base64.sextets l = Some vs -> j <= 2 ->
  Base64.strip_padding (l ++ List.repeat "="%char j) = l.
Proof.
  intros S Hj. unfold Base64.strip_padding.
  assert (Hend : match rev l with
                 | [] => True
                 | a :: _ => Ascii.eqb a "=" = false
                 end).
  { destruct (rev l) as [|a r] eqn:E; [exact I|].
    assert (L : l = rev r ++ [a])
      by (rewrite <- (rev_involutive l), E; reflexivity).
    rewrite L in S. apply Ascii.eqb_neq. exact (sextets_last_plain _ _ _ S). }
  rewrite rev_app_distr.
  destruct j as [|[|[|j]]]; [| | |lia]; simpl.
  - rewrite app_nil_r. destruct (rev l); [reflexivity|]. now rewrite Hend.
  - destruct (rev l) as [|a r] eqn:E.
    + now rewrite <- (rev_involutive l), E.
    + rewrite Hend. now rewrite <- (rev_involutive l), E.
  - now rewrite rev_involutive.
Qed.

Lemma list_ascii_repeat c n :
  list_ascii_of_string (JsString.repeat c n) = List.repeat c n.
Proof.
  induction n as [|n IH]; simpl; [reflexivity|]. now rewrite IH.
Qed.

Lemma filter_padding j :
  filter (fun c => negb (Base64.is_ascii_whitespace c)) (List.repeat "="%char j)
  = List.repeat "="%char j.
Proof.
  induction j as [|j IH]; simpl; [reflexivity|]. now rewrite IH.
Qed.

Lemma padding_bound n : n mod 4 <> 1 -> (4 - n mod 4) mod 4 <= 2.
Proof.
  intros Hn.
  pose proof (Nat.mod_upper_bound n 4 ltac:(discriminate)) as Hb.
  destruct (n mod 4) as [|[|[|[|r]]]]; simpl; lia.
Qed.

Lemma padded_length n : (n + (4 - n mod 4) mod 4) mod 4 = 0.
Proof.
  rewrite <- Nat.Div0.add_mod_idemp_l.
  pose proof (Nat.mod_upper_bound n 4 ltac:(discriminate)) as Hb.
  destruct (n mod 4) as [|[|[|[|r]]]]; try reflexivity; lia.
Qed.

(** An input that, once in the standard alphabet, holds nothing but
    characters of that alphabet, and whose length is not 1 modulo 4,
    decodes to the bytes of its six-bit values. *)
Lemma urlBase64ToUint8Array_plain s vs :
  Base64.sextets (list_ascii_of_string (to_standard_alphabet s)) = Some vs ->
  String.length s mod 4 <> 1 ->
  urlBase64ToUint8Array s
  = Return (charCodes (string_of_list_ascii (map ascii_of_N (Base64.octets vs)))).
Proof.
  intros S Hn.
  assert (Hlen : List.length (list_ascii_of_string (to_standard_alphabet s))
                 = String.length s).
  { unfold to_standard_alphabet. clear.
    induction s as [|c s IH]; simpl; [reflexivity|]. now rewrite IH. }
  pose proof (padding_bound _ Hn) as Hj.
  pose proof (padded_length (String.length s)) as Hz.
  unfold urlBase64ToUint8Array, padding_of.
  set (j := (4 - String.length s mod 4) mod 4) in *.
  rewrite to_standard_alphabet_padding.
  unfold Base64.atob, Base64.forgiving_decode.
  rewrite list_ascii_app, list_ascii_repeat, filter_app, filter_padding.
  rewrite (sextets_no_whitespace _ _ S).
  rewrite length_app, repeat_length, Hlen, Hz.
  change (Nat.eqb 0 0) with true. cbv iota.
  rewrite (strip_padding_appended _ _ _ S Hj), Hlen.
  destruct (Nat.eqb_spec (String.length s mod 4) 1) as [E|_]; [contradiction|].
  now rewrite S.
Qed.

(* ================================================================== *)
(** * Round trip with the base64url encoding *)
(* ================================================================== *)

Lemma by_three (P : list N -> Prop) :
  P [] -> (forall a, P [a]) -> (forall a b, P [a; b]) ->
  (forall a b c rest, P rest -> P (a :: b :: c :: rest)) ->
  forall l, P l.
Proof.
  intros H0 H1 H2 H3. fix IH 1.
  intros [|a [|b [|c rest]]]; [exact H0|apply H1|apply H2|].
  apply H3, IH.
Qed.

Lemma small_sextet (v : N) (Q : N -> Prop) :
  (v < 64)%N ->
  (forall n, (n < 64)%nat -> Q (N.of_nat n)) -> Q v.
Proof.
  intros Hv HQ. rewrite <- (N2Nat.id v). apply HQ. lia.
Qed.

Lemma sextet_url_char v :
  (v < 64)%N ->
  Base64.sextet
    (if Ascii.eqb (if Ascii.eqb (url_char v) "-" then "+"%char else url_char v) "_"
     then "/"%char
     else if Ascii.eqb (url_char v) "-" then "+"%char else url_char v) = Some v.
Proof.
  intros Hv. apply (small_sextet v); [exact Hv|].
  intros n Hn.
  do 64 (destruct n as [|n]; [reflexivity|]). lia.
Qed.

Lemma sextets_url_chars vs :
  Forall (fun v => (v < 64)%N) vs ->
  Base64.sextets
    (list_ascii_of_string
       (to_standard_alphabet (string_of_list_ascii (map url_char vs))))
  = Some vs.
Proof.
  unfold to_standard_alphabet.
  induction 1 as [|v vs Hv _ IH]; [reflexivity|].
  cbn [map string_of_list_ascii JsString.replace_all list_ascii_of_string
       Base64.sextets].
  rewrite (sextet_url_char v Hv). now rewrite IH.
Qed.

Lemma length_string_of_list l :
  String.length (string_of_list_ascii l) = List.length l.
Proof.
  induction l as [|c l IH]; simpl; [reflexivity|]. now rewrite IH.
Qed.

Lemma sextets_of_bytes_length bytes :
  List.length (sextets_of_bytes bytes) mod 4 <> 1.
Proof.
  induction bytes as [|a|a b|a b c rest IH] using by_three;
    try (simpl; discriminate).
  change (List.length (sextets_of_bytes (a :: b :: c :: rest)))
    with (4 + List.length (sextets_of_bytes rest)).
  rewrite <- Nat.Div0.add_mod_idemp_l. exact IH.
Qed.

Lemma sextets_of_bytes_small bytes :
  Forall (fun b => (b < 256)%N) bytes ->
  Forall (fun v => (v < 64)%N) (sextets_of_bytes bytes).
Proof.
  induction bytes as [|a|a b|a b c rest IH] using by_three; intros Hb.
  - constructor.
  - inversion_clear Hb as [|? ? Ha _].
    repeat constructor;
      [apply N.Div0.div_lt_upper_bound; lia|].
    pose proof (N.mod_upper_bound a 4 ltac:(discriminate)). lia.
  - inversion_clear Hb as [|? ? Ha Hb']. inversion_clear Hb' as [|? ? Hb _].
    pose proof (N.mod_upper_bound a 4 ltac:(discriminate)).
    pose proof (N.mod_upper_bound b 16 ltac:(discriminate)).
    assert (b / 16 < 16)%N by (apply N.Div0.div_lt_upper_bound; lia).
    repeat constructor; try lia.
    apply N.Div0.div_lt_upper_bound; lia.
  - inversion_clear Hb as [|? ? Ha Hb']. inversion_clear Hb' as [|? ? Hb Hc'].
    inversion_clear Hc' as [|? ? Hc Hrest].
    pose proof (N.mod_upper_bound a 4 ltac:(discriminate)).
    pose proof (N.mod_upper_bound b 16 ltac:(discriminate)).
    pose proof (N.mod_upper_bound c 64 ltac:(discriminate)).
    assert (b / 16 < 16)%N by (apply N.Div0.div_lt_upper_bound; lia).
    assert (c / 64 < 4)%N by (apply N.Div0.div_lt_upper_bound; lia).
    simpl. repeat constructor; try lia.
    + apply N.Div0.div_lt_upper_bound; lia.
    + exact (IH Hrest).
Qed.

(** Regrouping the six-bit groups of a byte sequence into bytes gives
    the sequence back. *)
Lemma octets_sextets_of_bytes bytes :
  Forall (fun b => (b < 256)%N) bytes ->
  Base64.octets (sextets_of_bytes bytes) = bytes.
Proof.
  induction bytes as [|a|a b|a b c rest IH] using by_three; intros Hb.
  - reflexivity.
  - inversion_clear Hb as [|? ? Ha _].
    cbn [sextets_of_bytes Base64.octets]. f_equal.
    pose proof (N.div_mod a 4 ltac:(discriminate)).
    pose proof (N.mod_upper_bound a 4 ltac:(discriminate)).
    symmetry. apply N.div_unique with (r := 0%N); lia.
  - inversion_clear Hb as [|? ? Ha Hb']. inversion_clear Hb' as [|? ? Hb _].
    cbn [sextets_of_bytes Base64.octets].
    pose proof (N.div_mod a 4 ltac:(discriminate)).
    pose proof (N.div_mod b 16 ltac:(discriminate)).
    pose proof (N.mod_upper_bound a 4 ltac:(discriminate)).
    pose proof (N.mod_upper_bound b 16 ltac:(discriminate)).
    replace (a / 4 * 4096 + (a mod 4 * 16 + b / 16) * 64 + b mod 16 * 4)%N
      with (a * 1024 + b * 4)%N by lia.
    f_equal; [|f_equal].
    + symmetry. apply N.div_unique with (r := (b * 4)%N); lia.
    + replace ((a * 1024 + b * 4) / 4)%N with (a * 256 + b)%N
        by (apply N.div_unique with (r := 0%N); lia).
      symmetry. apply N.mod_unique with (q := a); lia.
  - inversion_clear Hb as [|? ? Ha Hb']. inversion_clear Hb' as [|? ? Hb Hc'].
    inversion_clear Hc' as [|? ? Hc Hrest].
    cbn [sextets_of_bytes Base64.octets]. rewrite (IH Hrest).
    pose proof (N.div_mod a 4 ltac:(discriminate)).
    pose proof (N.div_mod b 16 ltac:(discriminate)).
    pose proof (N.div_mod c 64 ltac:(discriminate)).
    pose proof (N.mod_upper_bound a 4 ltac:(discriminate)).
    pose proof (N.mod_upper_bound b 16 ltac:(discriminate)).
    pose proof (N.mod_upper_bound c 64 ltac:(discriminate)).
    replace (a / 4 * 262144 + (a mod 4 * 16 + b / 16) * 4096
             + (b mod 16 * 4 + c / 64) * 64 + c mod 64)%N
      with (a * 65536 + b * 256 + c)%N by lia.
    f_equal; [|f_equal; [|f_equal]].
    + symmetry. apply N.div_unique with (r := (b * 256 + c)%N); lia.
    + replace ((a * 65536 + b * 256 + c) / 256)%N with (a * 256 + b)%N
        by (apply N.div_unique with (r := c); lia).
      symmetry. apply N.mod_unique with (q := a); lia.
    + symmetry. apply N.mod_unique with (q := (a * 256 + b)%N); lia.
Qed.

Lemma charCodes_bytes bytes :
  Forall (fun b => (b < 256)%N) bytes ->
  charCodes (string_of_list_ascii (map ascii_of_N bytes)) = bytes.
Proof.
  unfold charCodes. rewrite list_ascii_of_string_of_list_ascii.
  induction 1 as [|b bytes Hb _ IH]; simpl; [reflexivity|].
  rewrite N_ascii_embedding by exact Hb. now rewrite IH.
Qed.

(** X1.  Decoding the unpadded base64url text of a byte sequence gives
    the sequence back: the padding that is missing is restored, the
    URL-safe characters are mapped to the standard ones, and [atob]
    regroups the six-bit values into the bytes. *)
Theorem urlBase64ToUint8Array_base64url_encode bytes :
  Forall (fun b => (b < 256)%N) bytes ->
  urlBase64ToUint8Array (base64url_encode bytes) = Return bytes.
Proof.
  intros Hb. unfold base64url_encode.
  rewrite (urlBase64ToUint8Array_plain _ (sextets_of_bytes bytes)).
  - now rewrite (octets_sextets_of_bytes _ Hb), (charCodes_bytes _ Hb).
  - apply sextets_url_chars, sextets_of_bytes_small, Hb.
  - rewrite length_string_of_list, length_map. apply sextets_of_bytes_length.
Qed.

Lemma urlBase64ToUint8Array_base64url_encode_witness :
  base64url_encode [251; 255; 4; 65]%N = "-_8EQQ"
  /\ urlBase64ToUint8Array "-_8EQQ" = Return [251; 255; 4; 65]%N.
Proof.
  split; [reflexivity|].
  apply (urlBase64ToUint8Array_base64url_encode [251; 255; 4; 65]%N).
  repeat constructor.
Defined.

(* ================================================================== *)
(** * Size of the decoded key, and the two alphabets *)
(* ================================================================== *)

Lemma by_four (P : list N -> Prop) :
  P [] -> (forall a, P [a]) -> (forall a b, P [a; b]) ->
  (forall a b c, P [a; b; c]) ->
  (forall a b c d rest, P rest -> P (a :: b :: c :: d :: rest)) ->
  forall l, P l.
Proof.
  intros H0 H1 H2 H3 H4. fix IH 1.
  intros [|a [|b [|c [|d rest]]]]; [exact H0|apply H1|apply H2|apply H3|].
  apply H4, IH.
Qed.

Lemma octets_length vs :
  List.length vs mod 4 <> 1 ->
  List.length (Base64.octets vs) = 3 * List.length vs / 4.
Proof.
  induction vs as [|a|a b|a b c|a b c d rest IH] using by_four; intros Hn;
    try reflexivity.
  change (List.length (a :: b :: c :: d :: rest))
    with (4 + List.length rest) in *.
  rewrite <- Nat.Div0.add_mod_idemp_l in Hn.
  cbn [Base64.octets List.length]. rewrite (IH Hn).
  replace (3 * (4 + List.length rest)) with (3 * 4 + 3 * List.length rest) by lia.
  rewrite (Nat.div_add_l 3 4) by discriminate. reflexivity.
Qed.

Lemma alphabet_char_sextet c :
  alphabet_char c = true ->
  exists v,
    Base64.sextet
      (if Ascii.eqb (if Ascii.eqb c "-" then "+"%char else c) "_"
       then "/"%char
       else if Ascii.eqb c "-" then "+"%char else c) = Some v.
Proof.
  destruct c as [[] [] [] [] [] [] [] []]; vm_compute; intros E;
    try discriminate E; eexists; reflexivity.
Qed.

Lemma alphabet_sextets s :
  all_chars alphabet_char s = true ->
  exists vs,
    Base64.sextets (list_ascii_of_string (to_standard_alphabet s)) = Some vs.
Proof.
  unfold to_standard_alphabet.
  induction s as [|c s IH]; intros Ha.
  - exists []. reflexivity.
  - cbn [all_chars] in Ha. apply andb_prop in Ha as [Hc Hs].
    destruct (IH Hs) as (vs & E).
    destruct (alphabet_char_sextet c Hc) as (v & Ev).
    exists (v :: vs).
    cbn [JsString.replace_all list_ascii_of_string Base64.sextets].
    now rewrite Ev, E.
Qed.

Lemma charCodes_length_bound raw :
  List.length (charCodes raw) = String.length raw
  /\ Forall (fun b => (b < 256)%N) (charCodes raw).
Proof.
  unfold charCodes. induction raw as [|c raw [IHl IHb]]; simpl.
  - split; [reflexivity|constructor].
  - split; [now rewrite IHl|]. constructor; [apply N_ascii_bounded|exact IHb].
Qed.

(** X2.  An input made of characters of the two alphabets only (no
    padding, no whitespace), whose length [n] is not 1 modulo 4, always
    decodes, to [3 * n / 4] (rounded down) bytes. *)
Theorem urlBase64ToUint8Array_size s :
  all_chars alphabet_char s = true ->
  String.length s mod 4 <> 1 ->
  exists bytes,
    urlBase64ToUint8Array s = Return bytes
    /\ List.length bytes = 3 * String.length s / 4
    /\ Forall (fun b => (b < 256)%N) bytes.
Proof.
  intros Ha Hn.
  destruct (alphabet_sextets s Ha) as (vs & S).
  assert (Hlen : List.length vs = String.length s).
  { rewrite (sextets_length _ _ S). unfold to_standard_alphabet. clear.
    induction s as [|c s IH]; simpl; [reflexivity|]. now rewrite IH. }
  eexists. split; [exact (urlBase64ToUint8Array_plain s vs S Hn)|].
  destruct (charCodes_length_bound
              (string_of_list_ascii (map ascii_of_N (Base64.octets vs))))
    as (L & B).
  split; [|exact B].
  rewrite L, length_string_of_list, length_map, octets_length, Hlen;
    [reflexivity|now rewrite Hlen].
Qed.

Lemma urlBase64ToUint8Array_size_witness :
  exists bytes,
    urlBase64ToUint8Array "BPk-_w8" = Return bytes /\ List.length bytes = 5.
Proof.
  destruct (urlBase64ToUint8Array_size "BPk-_w8" eq_refl) as (bytes & E & L & _).
  - discriminate.
  - exists bytes. split; [exact E|exact L].
Defined.

Lemma url_variant_to_standard s u :
  url_variant s u -> to_standard_alphabet u = to_standard_alphabet s.
Proof.
  unfold to_standard_alphabet.
  induction 1 as [|c s u _ IH|s u _ IH|s u _ IH]; simpl;
    [reflexivity| | |]; now rewrite IH.
Qed.

(** X3.  The decoder does not tell the two alphabets apart: writing any
    [+] of an input as [-], or any [/] as [_], changes nothing to what
    it returns or throws, whatever else the input holds. *)
Theorem urlBase64ToUint8Array_alphabets s u :
  url_variant s u ->
  urlBase64ToUint8Array u = urlBase64ToUint8Array s.
Proof.
  intros V. unfold urlBase64ToUint8Array, padding_of.
  rewrite (url_variant_length _ _ V), !to_standard_alphabet_padding.
  now rewrite (url_variant_to_standard _ _ V).
Qed.

Lemma urlBase64ToUint8Array_alphabets_witness :
  urlBase64ToUint8Array "-/8" = urlBase64ToUint8Array "+/8".
Proof.
  apply (urlBase64ToUint8Array_alphabets "+/8" "-/8").
  apply uv_minus, uv_keep, uv_keep, uv_empty.
Defined.

(* ================================================================== *)
(** * Padding inside the input *)
(* ================================================================== *)

Lemma to_standard_alphabet_map s :
  list_ascii_of_string (to_standard_alphabet s)
  = map standard_char (list_ascii_of_string s).
Proof.
  unfold to_standard_alphabet.
  induction s as [|c s IH]; simpl; [reflexivity|]. now rewrite IH.
Qed.

Lemma standard_char_plain c :
  c <> "="%char -> Base64.is_ascii_whitespace c = false ->
  standard_char c <> "="%char
  /\ Base64.is_ascii_whitespace (standard_char c) = false.
Proof.
  destruct c as [[] [] [] [] [] [] [] []]; vm_compute; intros N W;
    try discriminate W; (split; [try discriminate; assumption|reflexivity]).
Qed.

(** A [=] that comes before a character other than [=] survives the
    removal of the trailing padding. *)
Lemma strip_padding_interior a b c t :
  c <> "="%char ->
  In "="%char (Base64.strip_padding (a ++ "="%char :: b ++ c :: t)).
Proof.
  intros Hc.
  set (F := a ++ "="%char :: b ++ c :: t).
  destruct (strip_padding_spec F) as (p & E & Hp).
  set (d := Base64.strip_padding F) in *.
  assert (Hcp : ~ In c p).
  { destruct Hp as [->|[->| ->]]; simpl; intuition congruence. }
  assert (Hi : nth_error F (List.length a + 1 + List.length b) = Some c).
  { unfold F. rewrite nth_error_app2 by lia.
    replace (List.length a + 1 + List.length b - List.length a)
      with (S (List.length b)) by lia.
    simpl. rewrite nth_error_app2 by lia.
    now rewrite Nat.sub_diag. }
  assert (Hlt : List.length a + 1 + List.length b < List.length d).
  { destruct (Nat.lt_ge_cases (List.length a + 1 + List.length b) (List.length d))
      as [L|G]; [exact L|].
    rewrite E, nth_error_app2 in Hi by exact G.
    elim Hcp. exact (nth_error_In _ _ Hi). }
  assert (Hj : nth_error F (List.length a) = Some "="%char).
  { unfold F. rewrite nth_error_app2 by lia. now rewrite Nat.sub_diag. }
  rewrite E, nth_error_app1 in Hj by lia.
  exact (nth_error_In _ _ Hj).
Qed.

Lemma forgiving_decode_interior_padding s a b c t :
  list_ascii_of_string s = a ++ "="%char :: b ++ c :: t ->
  c <> "="%char -> Base64.is_ascii_whitespace c = false ->
  Base64.forgiving_decode s = None.
Proof.
  intros E Hc Hw. unfold Base64.forgiving_decode. rewrite E.
  rewrite filter_app. simpl. rewrite filter_app. simpl. rewrite Hw. simpl.
  set (a' := filter _ a). set (b' := filter _ b). set (t' := filter _ t).
  assert (Hno : forall l, In "="%char l -> Base64.sextets l = None)
    by (intros l Hl; exact (sextets_In _ l Hl eq_refl)).
  match goal with
  | |- context [if ?test then Base64.strip_padding _ else _] => destruct test
  end.
  - rewrite (Hno _ (strip_padding_interior a' b' c t' Hc)).
    now destruct (Nat.eqb _ 1).
  - rewrite Hno by (apply in_or_app; right; now left).
    now destruct (Nat.eqb _ 1).
Qed.

(** X4.  Padding is accepted at the end of the input only: an input in
    which a [=] comes before a character that is neither [=] nor ASCII
    whitespace is rejected, whatever the rest of it. *)
Theorem urlBase64ToUint8Array_interior_padding s1 s2 c s3 :
  c <> "="%char -> Base64.is_ascii_whitespace c = false ->
  urlBase64ToUint8Array (s1 ++ String "=" (s2 ++ String c s3))%string
  = Throw (DOMException "InvalidCharacterError").
Proof.
  intros Hc Hw.
  destruct (standard_char_plain c Hc Hw) as (Hc' & Hw').
  unfold urlBase64ToUint8Array, Base64.atob.
  rewrite (forgiving_decode_interior_padding _
             (map standard_char (list_ascii_of_string s1))
             (map standard_char (list_ascii_of_string s2))
             (standard_char c)
             (map standard_char
                (list_ascii_of_string
                   (s3 ++ padding_of (s1 ++ String "=" (s2 ++ String c s3)))%string)));
    [reflexivity| |exact Hc'|exact Hw'].
  rewrite to_standard_alphabet_map, !list_ascii_app.
  cbn [list_ascii_of_string]. rewrite !list_ascii_app.
  cbn [list_ascii_of_string]. rewrite !map_app. cbn [map].
  rewrite !map_app. cbn [map]. rewrite <- !app_assoc. cbn [app].
  rewrite <- !app_assoc. reflexivity.
Qed.

Lemma urlBase64ToUint8Array_interior_padding_witness :
  urlBase64ToUint8Array "QQ==QUJD" = Throw (DOMException "InvalidCharacterError").
Proof.
  apply (urlBase64ToUint8Array_interior_padding "QQ" "=" "Q" "UJD").
  - discriminate.
  - reflexivity.
Defined.

(* ================================================================== *)
(** * [enable]: creating the subscription *)
(* ================================================================== *)

Section EnableFresh.

Context `{Platform} (env : Env).

(** X5.  With no subscription active, a key that decodes and every
    party answering, [enable] subscribes with [userVisibleOnly] set and
    the decoded key as application server key, posts the subscription
    the push service issued to [/push/subscribe], and resolves [true]
    once the server has accepted it; that subscription is then the
    active one. *)
Theorem enable_creates_subscription key bytes w fresh res :
  sw_supported w = true ->
  active_subscription w = None ->
  register_reply env (now w) = Resolved tt ->
  permission_reply env (S (now w)) = granted ->
  getSubscription_reply env (S (S (now w))) = Resolved tt ->
  urlBase64ToUint8Array key = Return bytes ->
  subscribe_reply env (S (S (S (now w)))) = Resolved fresh ->
  fetch_reply env (S (S (S (S (now w))))) = Resolved res ->
  ok res = true ->
  exists w',
    enable env key w = (Return true, w')
    /\ trace w'
       = trace w ++ [EvRegister "/static/sw.js"; EvRequestPermission;
                     EvGetSubscription; EvSubscribe true bytes;
                     EvFetch (post_request "/push/subscribe" fresh)]
    /\ active_subscription w' = Some fresh.
Proof.
  intros S A R P G K U F O.
  run; try congruence; tidy.
  eexists. split; [reflexivity|]. autorewrite with world.
  injection K as ->. split; reflexivity.
Qed.

(** X6.  With no subscription active, a key that does not decode makes
    [enable] throw the decoder's error after the lookup: [subscribe] is
    not called, nothing is sent to the server and no subscription
    becomes active. *)
Theorem enable_bad_key key e w :
  sw_supported w = true ->
  active_subscription w = None ->
  register_reply env (now w) = Resolved tt ->
  permission_reply env (S (now w)) = granted ->
  getSubscription_reply env (S (S (now w))) = Resolved tt ->
  urlBase64ToUint8Array key = Throw e ->
  exists w',
    enable env key w = (Throw e, w')
    /\ trace w'
       = trace w ++ [EvRegister "/static/sw.js"; EvRequestPermission;
                     EvGetSubscription]
    /\ active_subscription w' = None.
Proof.
  intros S A R P G K.
  run; try congruence; tidy.
  injection K as ->.
  eexists. split; [reflexivity|]. autorewrite with world.
  split; [reflexivity|assumption].
Qed.

(** X7.  When a subscription is active the key is never looked at:
    [enable] does the same, and ends in the same state, for any two
    keys, decodable or not. *)
Theorem enable_ignores_key key1 key2 w s :
  active_subscription w = Some s ->
  enable env key1 w = enable env key2 w.
Proof.
  intros A. run; try congruence; reflexivity.
Qed.

End EnableFresh.

Lemma enable_creates_subscription_witness :
  exists w',
    @enable example_host (answering granted ok_200) "QUJD" never_registered
    = (Return true, w')
    /\ trace w'
       = [EvRegister "/static/sw.js"; EvRequestPermission; EvGetSubscription;
          EvSubscribe true [65; 66; 67]%N;
          EvFetch (@post_request example_host "/push/subscribe" sub2)]
    /\ active_subscription w' = Some sub2.
Proof.
  apply (@enable_creates_subscription example_host (answering granted ok_200)
           "QUJD" [65; 66; 67]%N never_registered sub2 ok_200);
    reflexivity.
Defined.

Lemma enable_bad_key_witness :
  exists w',
    @enable example_host (answering granted ok_200) "QUJDR" never_registered
    = (Throw (DOMException "InvalidCharacterError"), w')
    /\ trace w'
       = [EvRegister "/static/sw.js"; EvRequestPermission; EvGetSubscription]
    /\ active_subscription w' = None.
Proof.
  apply (@enable_bad_key example_host (answering granted ok_200)
           "QUJDR" (DOMException "InvalidCharacterError") never_registered);
    reflexivity.
Defined.

Lemma enable_ignores_key_witness :
  @enable example_host (answering granted ok_200) "QUJDR" subscribed
  = @enable example_host (answering granted ok_200) "QUJD" subscribed.
Proof.
  apply (@enable_ignores_key example_host (answering granted ok_200)
           "QUJDR" "QUJD" subscribed sub1).
  reflexivity.
Defined.

(* ================================================================== *)
(** * What [enable] and [disable] guarantee in every run *)
(* ================================================================== *)

Section EveryRun.

Context `{Platform} (env : Env).

(** X8.  [enable] resolves [true] only when the platform has worker
    support, the permission was granted, and its last call was the POST
    of the subscription that is now active, which the server answered
    with a 2xx status. *)
Theorem enable_resolves_after_ack key w :
  fst (enable env key w) = Return true ->
  sw_supported w = true
  /\ permission_reply env (S (now w)) = granted
  /\ exists s res pre,
      trace (snd (enable env key w))
      = pre ++ [EvFetch (post_request "/push/subscribe" s)]
      /\ active_subscription (snd (enable env key w)) = Some s
      /\ fetch_reply env (List.length pre) = Resolved res
      /\ ok res = true.
Proof.
  run; intros E; try discriminate E; try congruence;
    (split; [reflexivity|split; [reflexivity|]]).
  - exists s, value,
      (trace w ++ [EvRegister "/static/sw.js"; EvRequestPermission;
                   EvGetSubscription]).
    split; [now rewrite <- app_assoc|]. split; [assumption|].
    split; [|assumption].
    rewrite length_app. simpl. fold (now w).
    replace (now w + 3) with (S (S (S (now w)))) by lia. assumption.
  - exists value0, value1,
      (trace w ++ [EvRegister "/static/sw.js"; EvRequestPermission;
                   EvGetSubscription; EvSubscribe true value]).
    split; [now rewrite <- app_assoc|]. split; [reflexivity|].
    split; [|assumption].
    rewrite length_app. simpl. fold (now w).
    replace (now w + 4) with (S (S (S (S (now w))))) by lia. assumption.
Qed.

Ltac each_call :=
  let e := fresh "e" in
  let Hin := fresh "Hin" in
  intros e Hin; simpl in Hin;
  repeat (destruct Hin as [<-|Hin]; [reflexivity|]); contradiction.

Ltac the_fetch Hin E :=
  simpl in Hin;
  repeat (destruct Hin as [E|Hin]; [try discriminate E|]);
  try contradiction.

(** X9.  In every run, whatever the platform and the server answer,
    [enable] only adds calls to the trace, never calls [unsubscribe],
    registers no script but [/static/sw.js], and sends at most one
    request: a POST to [/push/subscribe], of type [application/json],
    whose body is the subscription active at the end of the call. *)
Theorem enable_discipline key w :
  exists es,
    trace (snd (enable env key w)) = trace w ++ es
    /\ (forall e, In e es -> is_unsubscribe e = false)
    /\ (forall url, In (EvRegister url) es -> url = "/static/sw.js")
    /\ List.length (filter is_fetch es) <= 1
    /\ (forall q, In (EvFetch q) es ->
          req_url q = "/push/subscribe"
          /\ req_method q = "POST"
          /\ req_content_type q = "application/json"
          /\ exists s,
              active_subscription (snd (enable env key w)) = Some s
              /\ req_body q = JSON_stringify s).
Proof.
  run; eexists;
    (split; [first [reflexivity | symmetry; apply app_nil_r]|]);
    (split; [each_call|]);
    (split; [intros url Hin; the_fetch Hin E; now injection E as <-|]);
    (split; [simpl; lia|]);
    intros q Hin; the_fetch Hin E; injection E as <-;
    (split; [reflexivity|split; [reflexivity|split; [reflexivity|]]]);
    eexists; (split; [first [eassumption | reflexivity]|reflexivity]).
Qed.

(** X10.  In every run [disable] only adds calls to the trace, never
    asks for the notification permission and never calls [subscribe],
    registers no script but [/static/sw.js], sends at most one request,
    the POST to [/push/unsubscribe] of the subscription that was
    active, and leaves no subscription active where none was. *)
Theorem disable_discipline w :
  exists es,
    trace (snd (disable env w)) = trace w ++ es
    /\ (forall e, In e es -> is_subscribing e = false)
    /\ (forall url, In (EvRegister url) es -> url = "/static/sw.js")
    /\ List.length (filter is_fetch es) <= 1
    /\ (forall q, In (EvFetch q) es ->
          exists s,
            active_subscription w = Some s
            /\ q = post_request "/push/unsubscribe" s)
    /\ (active_subscription w = None ->
        active_subscription (snd (disable env w)) = None).
Proof.
  run; eexists;
    (split; [first [reflexivity | symmetry; apply app_nil_r]|]);
    (split; [each_call|]);
    (split; [intros url Hin; the_fetch Hin E; now injection E as <-|]);
    (split; [simpl; lia|]);
    (split; [|first [discriminate | intros _; assumption | reflexivity]]);
    intros q Hin; the_fetch Hin E; injection E as <-;
    eexists; (split; [first [eassumption | reflexivity]|reflexivity]).
Qed.

End EveryRun.

(* ================================================================== *)
(** * [disable] after the server's answer, and after [enable] *)
(* ================================================================== *)

Lemma sw_supported_ensure_registration w :
  sw_supported (ensure_registration w) = sw_supported w.
Proof. unfold ensure_registration. now destruct (registration w). Qed.

Section EnableDisable.

Context `{Platform} (env : Env).

Lemma enable_keeps_support key w :
  sw_supported (snd (enable env key w)) = sw_supported w.
Proof.
  destruct (sw_supported w) eqn:S.
  - run; try discriminate;
      unfold set_registration, log; simpl;
      rewrite ?sw_supported_ensure_registration; exact Heqb.
  - now rewrite (enable_unsupported env key w S).
Qed.

Lemma disable_keeps_support w :
  sw_supported (snd (disable env w)) = sw_supported w.
Proof.
  destruct (sw_supported w) eqn:S.
  - run; try discriminate;
      unfold set_registration, log; simpl;
      rewrite ?sw_supported_ensure_registration; exact Heqb.
  - now rewrite (disable_unsupported env w S).
Qed.

(** X11.  Once the server has accepted the unsubscription, [disable]
    resolves [true] whatever boolean [unsubscribe] resolves with; and
    when [unsubscribe] rejects, [disable] throws that error although
    the server has been told, the subscription staying active. *)
Theorem disable_after_server_ack w s res :
  active_subscription w = Some s ->
  sw_supported w = true ->
  register_reply env (now w) = Resolved tt ->
  getSubscription_reply env (S (now w)) = Resolved tt ->
  fetch_reply env (S (S (now w))) = Resolved res ->
  ok res = true ->
  trace (snd (disable env w))
  = trace w ++ disable_calls s ++ [EvUnsubscribe s]
  /\ (forall b,
         unsubscribe_reply env (S (S (S (now w)))) = Resolved b ->
         fst (disable env w) = Return true)
  /\ (forall e,
         unsubscribe_reply env (S (S (S (now w)))) = Rejected e ->
         fst (disable env w) = Throw e
         /\ active_subscription (snd (disable env w)) = Some s).
Proof.
  intros A S R G F O.
  destruct (disable_server_accepts env w s res A S R G F O) as (w' & E & T & K).
  rewrite E. simpl. split; [exact T|]. split.
  - intros b U. now rewrite U.
  - intros e U. rewrite U in K. now rewrite U.
Qed.

(** X12.  A [disable] that follows an [enable] that resolved withdraws
    the very subscription that [enable] posted: when every party
    answers, it posts that subscription to [/push/unsubscribe], revokes
    it and resolves [true], no subscription being active afterwards. *)
Theorem disable_after_enable key w res :
  fst (enable env key w) = Return true ->
  let w1 := snd (enable env key w) in
  register_reply env (now w1) = Resolved tt ->
  getSubscription_reply env (S (now w1)) = Resolved tt ->
  fetch_reply env (S (S (now w1))) = Resolved res ->
  ok res = true ->
  unsubscribe_reply env (S (S (S (now w1)))) = Resolved true ->
  exists s w2,
    In (EvFetch (post_request "/push/subscribe" s)) (trace w1)
    /\ disable env w1 = (Return true, w2)
    /\ trace w2 = trace w1 ++ disable_calls s ++ [EvUnsubscribe s]
    /\ active_subscription w2 = None.
Proof.
  intros E w1 R G F O U.
  destruct (enable_resolved_active env key w E) as (s & A & Hin).
  assert (S : sw_supported w = true).
  { destruct (sw_supported w) eqn:S; [reflexivity|].
    rewrite (enable_unsupported env key w S) in E. discriminate E. }
  fold w1 in A, Hin.
  assert (S1 : sw_supported w1 = true)
    by (unfold w1; now rewrite enable_keeps_support).
  destruct (disable_server_accepts env w1 s res A S1 R G F O)
    as (w2 & D & T & K).
  rewrite U in D, K.
  exists s, w2. repeat split; assumption.
Qed.

(** X13.  [disable] is idempotent: after a [disable] that revoked the
    subscription, a second [disable] (the worker and the lookup
    answering) looks the subscription up, finds none, sends nothing to
    the server and resolves [true]. *)
Theorem disable_twice w s res :
  active_subscription w = Some s ->
  sw_supported w = true ->
  register_reply env (now w) = Resolved tt ->
  getSubscription_reply env (S (now w)) = Resolved tt ->
  fetch_reply env (S (S (now w))) = Resolved res ->
  ok res = true ->
  unsubscribe_reply env (S (S (S (now w)))) = Resolved true ->
  let w1 := snd (disable env w) in
  register_reply env (now w1) = Resolved tt ->
  getSubscription_reply env (S (now w1)) = Resolved tt ->
  fst (disable env w) = Return true
  /\ exists w2,
      disable env w1 = (Return true, w2)
      /\ trace w2 = trace w1 ++ [EvRegister "/static/sw.js"; EvGetSubscription]
      /\ active_subscription w2 = None.
Proof.
  intros A S R G F O U w1 R1 G1.
  destruct (disable_server_accepts env w s res A S R G F O) as (w' & D & T & K).
  rewrite U in D, K.
  assert (S1 : sw_supported w1 = true)
    by (unfold w1; now rewrite disable_keeps_support).
  assert (A1 : active_subscription w1 = None)
    by (unfold w1; now rewrite D).
  split; [now rewrite D|].
  eexists. split; [exact (disable_no_subscription env w1 S1 R1 G1 A1)|].
  autorewrite with world. split; [reflexivity|exact A1].
Qed.

End EnableDisable.

Lemma enable_resolves_after_ack_witness :
  exists s res pre,
    trace (snd (@enable example_host (answering granted ok_200) "QUJD" subscribed))
    = pre ++ [EvFetch (@post_request example_host "/push/subscribe" s)]
    /\ fetch_reply (answering granted ok_200) (List.length pre) = Resolved res
    /\ ok res = true.
Proof.
  destruct (@enable_resolves_after_ack example_host (answering granted ok_200)
              "QUJD" subscribed eq_refl)
    as (_ & _ & s & res & pre & T & _ & F & O).
  exists s, res, pre. split; [exact T|]. split; [exact F|exact O].
Defined.

Lemma disable_after_server_ack_witness :
  trace (snd (@disable example_host (answering granted ok_200) subscribed))
  = @disable_calls example_host sub1 ++ [EvUnsubscribe sub1]
  /\ fst (@disable example_host (answering granted ok_200) subscribed)
     = Return true.
Proof.
  destruct (@disable_after_server_ack example_host (answering granted ok_200)
              subscribed sub1 ok_200 eq_refl eq_refl eq_refl eq_refl eq_refl
              eq_refl)
    as (T & B & _).
  split; [exact T|]. exact (B true eq_refl).
Defined.

Lemma disable_after_enable_witness :
  exists s w2,
    @disable example_host (answering granted ok_200)
      (snd (@enable example_host (answering granted ok_200) "QUJD" never_registered))
    = (Return true, w2)
    /\ In (EvFetch (@post_request example_host "/push/subscribe" s))
          (trace (snd (@enable example_host (answering granted ok_200) "QUJD"
                         never_registered)))
    /\ In (EvFetch (@post_request example_host "/push/unsubscribe" s)) (trace w2)
    /\ active_subscription w2 = None.
Proof.
  destruct (@disable_after_enable example_host (answering granted ok_200)
              "QUJD" never_registered ok_200 eq_refl eq_refl eq_refl eq_refl
              eq_refl eq_refl)
    as (s & w2 & Hin & D & T & A).
  exists s, w2. split; [exact D|]. split; [exact Hin|]. split; [|exact A].
  rewrite T. apply in_or_app. right. unfold disable_calls. simpl. tauto.
Defined.

Lemma disable_twice_witness :
  exists w2,
    @disable example_host (answering granted ok_200)
      (snd (@disable example_host (answering granted ok_200) subscribed))
    = (Return true, w2)
    /\ active_subscription w2 = None.
Proof.
  destruct (@disable_twice example_host (answering granted ok_200)
              subscribed sub1 ok_200 eq_refl eq_refl eq_refl eq_refl eq_refl
              eq_refl eq_refl eq_refl eq_refl)
    as (_ & w2 & D & _ & A).
  exists w2. split; [exact D|exact A].
Defined.

(* ================================================================== *)
(** * The service worker in every case *)
(* ================================================================== *)

Lemma prefix_append t s :
  String.prefix t s = true <-> exists b, s = (t ++ b)%string.
Proof.
  revert s. induction t as [|c t IH]; intros s; simpl.
  - split; [intros _; now exists s|intros _; now destruct s].
  - destruct s as [|d s]; [split; [discriminate|intros (b & E); discriminate E]|].
    simpl. destruct (ascii_dec c d) as [->|N].
    + rewrite IH. split; intros (b & E); exists b; simpl; congruence.
    + split; [discriminate|]. intros (b & E). simpl in E. congruence.
Qed.

(** [s.includes(t)] holds exactly when [t] occurs in [s]. *)
Lemma includes_occurs s t :
  JsString.includes s t = true <-> exists a b, s = (a ++ t ++ b)%string.
Proof.
  induction s as [|c s IH]; cbn [JsString.includes].
  - rewrite orb_false_r, prefix_append. split.
    + intros (b & E). now exists "", b.
    + intros (a & b & E). destruct a; [now exists b|discriminate E].
  - rewrite orb_true_iff, IH, prefix_append. split.
    + intros [(b & E)|(a & b & E)].
      * now exists "", b.
      * exists (String c a), b. simpl. now rewrite E.
    + intros (a & b & E). destruct a as [|d a].
      * left. now exists b.
      * right. exists a, b. simpl in E. congruence.
Qed.

Section ServiceWorkerFacts.

Context `{Platform}.

(** X14.  The [push] listener throws in one case only, a payload that
    parses to [null] (or to [undefined]); in every other case, data
    absent or not JSON included, it shows exactly one notification,
    whose title is truthy and whose icon and badge are the fixed logo,
    whatever the payload holds. *)
Theorem onPush_every_event event :
  match event_data_json event with
  | Return JNull | Return JUndefined => onPush event = ([], Throw TypeError)
  | _ =>
      exists title options,
        onPush event = ([ShowNotification title options], Return tt)
        /\ truthy title = true
        /\ opt_icon options = "/static/logo.png"
        /\ opt_badge options = "/static/logo.png"
  end.
Proof.
  unfold onPush, push_payload.
  destruct (event_data_json event) as [v|e].
  - destruct v as [| |b|x|s|l|props]; try reflexivity;
      try (do 2 eexists; split; [reflexivity|]; repeat split).
    unfold notify, get.
    destruct (assoc "title" props) as [t|], (assoc "body" props),
      (assoc "data" props);
      do 2 eexists; (split; [reflexivity|]);
      (split; [|split; reflexivity]);
      unfold js_or; try reflexivity;
      destruct (truthy t) eqn:T; [exact T|reflexivity|exact T|reflexivity
                                 |exact T|reflexivity|exact T|reflexivity].
  - do 2 eexists. split; [reflexivity|]. repeat split.
Qed.

(** The conversion to a string throws nothing but a [TypeError]. *)
Lemma ToString_TypeError v e : ToString v = Throw e -> e = TypeError.
Proof.
  revert v e. fix IH 1. intros v e.
  destruct v as [| |b|x|s|l|props]; simpl; try discriminate.
  - destruct b; discriminate.
  - revert l. fix IHl 1. intros [|x l]; [discriminate|].
    specialize (IHl l).
    destruct (match x with
              | JUndefined | JNull => Return ""
              | _ => ToString x
              end) as [r|e'] eqn:X.
    + destruct l as [|y l']; [intros E; discriminate E|].
      match goal with
      | |- match ?j with _ => _ end = _ -> _ => destruct j
      end; [intros E; discriminate E|exact IHl].
    + intros E. injection E as <-.
      assert (TX : ToString x = Throw e')
        by (destruct x; try discriminate X; exact X).
      exact (IH x _ TX).
  - destruct (assoc "toString" props); intros E; [now injection E as <-|discriminate E].
Qed.

Lemma click_target_TypeError data e :
  click_target data = Throw e -> e = TypeError.
Proof.
  unfold click_target. destruct data; try discriminate.
  destruct (truthy (field "url" properties)); [apply ToString_TypeError|discriminate].
Qed.

Lemma click_target_default d :
  click_target (js_or d (JObj [])) = click_target d.
Proof.
  unfold js_or. destruct (truthy d) eqn:T; [reflexivity|].
  destruct d; try reflexivity; discriminate T.
Qed.

(** X15.  A click on the notification that the [push] listener showed
    is routed by the payload: its target is the [url] of the payload's
    [data], converted to a string, when the payload is an object whose
    [data] is an object with a truthy [url], and ["/portal"] in every
    other case, data absent or not JSON included.  When that target is
    a string or converts to one, the first window client whose URL
    contains it is focused, or else a window is opened at it where
    [clients.openWindow] is defined; when it does not convert, nothing
    is focused or opened, and the conversion's error is thrown as soon
    as there is a window client to test or [clients.openWindow] is
    defined. *)
Theorem push_then_click event self title options :
  onPush event = ([ShowNotification title options], Return tt) ->
  let target :=
    match event_data_json event with
    | Return (JObj props) => click_target (field "data" props)
    | _ => Return "/portal"
    end in
  let click :=
    onNotificationClick {| notification_data := opt_data options |} self in
  click_target (opt_data options) = target
  /\ (forall url,
         target = Return url ->
         click
         = ([CloseNotification; MatchAll window true] ++
            match find (matches url) (clients self) with
            | Some client => [Focus client]
            | None => if clients_openWindow self then [OpenWindow url] else []
            end, Return tt))
  /\ (forall e,
         target = Throw e ->
         click
         = ([CloseNotification; MatchAll window true],
            if has_window_client self || clients_openWindow self
            then Throw e else Return tt)).
Proof.
  intros E target click.
  assert (T : click_target (opt_data options) = target).
  { subst target. revert E. unfold onPush, push_payload.
    destruct (event_data_json event) as [v|e].
    - destruct v as [| |b|x|s|l|props]; try discriminate;
        try (intros E; injection E as <- <-; reflexivity).
      unfold notify, get, field.
      destruct (assoc "title" props), (assoc "body" props),
        (assoc "data" props);
        intros E; injection E as <- <-; cbn [opt_data];
        apply click_target_default.
    - intros E. injection E as <- <-. reflexivity. }
  split; [exact T|]. rewrite <- T. subst click. split.
  - intros url U. now apply onNotificationClick_target.
  - intros e U. now apply onNotificationClick_no_target.
Qed.

(** X16.  The [notificationclick] listener closes the notification and
    lists the window clients, in every case.  When the target is a
    string or converts to one it never throws and does one thing more
    at most: it focuses a client, which is then a window client of the
    origin whose URL holds the target somewhere inside it, or it opens
    a window at the target, only where [clients.openWindow] is defined
    and no window client matches.  When the target does not convert to
    a string it focuses and opens nothing, and throws a [TypeError] as
    soon as there is a window client to test or [clients.openWindow]
    is defined. *)
Theorem onNotificationClick_every_event event self :
  exists rest outcome,
    onNotificationClick event self
    = (CloseNotification :: MatchAll window true :: rest, outcome)
    /\ match click_target (notification_data event) with
       | Return url =>
           outcome = Return tt
           /\ ((exists client a b,
                   rest = [Focus client]
                   /\ In client (clients self)
                   /\ client_type client = window
                   /\ client_url client = (a ++ url ++ b)%string)
               \/ (rest = [OpenWindow url]
                   /\ clients_openWindow self = true
                   /\ forall c, In c (clients self) -> matches url c = false)
               \/ (rest = []
                   /\ clients_openWindow self = false
                   /\ forall c, In c (clients self) -> matches url c = false))
       | Throw e =>
           e = TypeError
           /\ rest = []
           /\ outcome = (if has_window_client self || clients_openWindow self
                         then Throw TypeError else Return tt)
       end.
Proof.
  destruct (click_target (notification_data event)) as [url|e] eqn:T.
  - rewrite (onNotificationClick_target _ _ _ T).
    destruct (find (matches url) (clients self)) as [c|] eqn:F.
    + exists [Focus c], (Return tt). split; [reflexivity|].
      split; [reflexivity|]. left.
      apply find_some in F as [Hin M].
      unfold matches in M. apply andb_prop in M as [W I].
      apply includes_occurs in I as (a & b & E).
      exists c, a, b. repeat split; try assumption.
      destruct (client_type c); try discriminate W; reflexivity.
    + pose proof (find_none _ _ F) as N.
      destruct (clients_openWindow self) eqn:O.
      * exists [OpenWindow url], (Return tt). split; [reflexivity|].
        split; [reflexivity|]. right. left. repeat split. exact N.
      * exists [], (Return tt). split; [reflexivity|].
        split; [reflexivity|]. right. right. repeat split. exact N.
  - rewrite (onNotificationClick_no_target _ _ _ T).
    rewrite (click_target_TypeError _ _ T).
    eexists [], _. split; [reflexivity|]. repeat split.
Qed.

End ServiceWorkerFacts.

Lemma push_then_click_witness :
  @onNotificationClick example_host
    {| notification_data := JObj [("url", JStr "/x")] |}
    {| clients := [other_tab]; clients_openWindow := true |}
  = ([CloseNotification; MatchAll window true; OpenWindow "/x"], Return tt).
Proof.
  apply (proj1 (proj2
           (@push_then_click example_host {| event_data := Some payload_full |}
              {| clients := [other_tab]; clients_openWindow := true |}
              (JStr "T") (default_options (JStr "B") (JObj [("url", JStr "/x")]))
              eq_refl))
           "/x").
  reflexivity.
Defined.

(** A target that does not convert: [data.url] is an object with an own
    [toString].  With a window client open the callback throws at its
    first test; with none, and no [clients.openWindow], it has nothing
    to convert and returns. *)
Example click_on_unconvertible_url :
  @onNotificationClick example_host
    {| notification_data := JObj [("url", JObj [("toString", JNull)])] |}
    {| clients := [other_tab]; clients_openWindow := true |}
  = ([CloseNotification; MatchAll window true], Throw TypeError)
  /\ @onNotificationClick example_host
       {| notification_data := JObj [("url", JObj [("toString", JNull)])] |}
       {| clients := []; clients_openWindow := true |}
     = ([CloseNotification; MatchAll window true], Throw TypeError)
  /\ @onNotificationClick example_host
       {| notification_data := JObj [("url", JObj [("toString", JNull)])] |}
       {| clients := []; clients_openWindow := false |}
     = ([CloseNotification; MatchAll window true], Return tt)
  /\ @ToString example_host (JArr [JNull; JStr "a"; JArr [JStr "b"; JStr "c"]])
     = Return ",a,b,c"
  /\ @ToString example_host (JObj [("url", JStr "/x")]) = Return "[object Object]".
Proof.
  repeat split.
Qed.

(* ================================================================== *)
(** * [registerSW], and padding that is already there *)
(* ================================================================== *)

Section RegisterSW.

Context `{Platform} (env : Env).

(** X17.  [registerSW] returns [null] exactly when the platform lacks
    worker support, and then calls nothing; a registration that the
    platform refuses is a thrown error, never a [null]; and in no case
    does it touch the active subscription. *)
Theorem registerSW_null w :
  (fst (registerSW env w) = Return None <-> sw_supported w = false)
  /\ (sw_supported w = false -> registerSW env w = (Return None, w))
  /\ (forall e,
         fst (registerSW env w) = Throw e
         <-> sw_supported w = true /\ register_reply env (now w) = Rejected e)
  /\ active_subscription (snd (registerSW env w)) = active_subscription w.
Proof.
  unfold registerSW, serviceWorker_register, bind, ret.
  destruct (sw_supported w) eqn:S; simpl.
  - destruct (register_reply env (now w)) as [[]|e'] eqn:R; simpl.
    + split; [split; intros E; discriminate E|].
      split; [intros E; discriminate E|].
      split; [|now autorewrite with world].
      intros e. split; [intros E; discriminate E|intros (_ & E); discriminate E].
    + split; [split; intros E; discriminate E|].
      split; [intros E; discriminate E|].
      split; [|now autorewrite with world].
      intros e. split.
      * intros E. injection E as ->. now split.
      * intros (_ & E). now injection E as ->.
  - split; [split; reflexivity|].
    split; [reflexivity|].
    split; [|reflexivity].
    intros e. split; [intros E; discriminate E|intros (E & _); discriminate E].
Qed.

End RegisterSW.

Lemma registerSW_null_witness :
  @registerSW (answering granted ok_200) unsupported = (Return None, unsupported)
  /\ fst (@registerSW refusing_registration never_registered)
     = Throw (DOMException "SecurityError").
Proof.
  split.
  - apply (proj1 (proj2 (@registerSW_null (answering granted ok_200) unsupported))).
    reflexivity.
  - apply (proj1 (proj2 (proj2 (@registerSW_null refusing_registration
                                   never_registered)))
             (DOMException "SecurityError")).
    split; reflexivity.
Defined.

Lemma padding_of_padded s : padding_of (s ++ padding_of s)%string = "".
Proof.
  unfold padding_of at 1.
  rewrite length_append. unfold padding_of. rewrite length_repeat.
  now rewrite padded_length.
Qed.

Lemma append_empty s : (s ++ "")%string = s.
Proof.
  induction s as [|c s IH]; simpl; [reflexivity|]. now rewrite IH.
Qed.

(** X18.  Padding that is already there is as good as padding that is
    missing: completing an input with the [=] it lacks changes nothing
    to what the decoder returns or throws. *)
Theorem urlBase64ToUint8Array_padded s :
  urlBase64ToUint8Array (s ++ padding_of s)%string = urlBase64ToUint8Array s.
Proof.
  unfold urlBase64ToUint8Array at 1.
  now rewrite padding_of_padded, append_empty.
Qed.
